(** * solicit: the submission intake pipeline of [server.py]

    A shallow embedding of the Flask handler [handle_submission], of its
    field validators and of the Telegram dispatcher [send_to_telegram],
    followed by the properties of the pipeline.

    Conventions of the embedding.
    - A Python [str] is a Rocq [string]; non-ASCII text is carried as its
      UTF-8 bytes.  The character classes of the source's regular
      expressions are ASCII ranges; [\D] is read over the ASCII digits.
    - A Python [dict] is an association list in insertion order; [get] and
      [set] follow [dict.get] and [d[k] = v].
    - The JSON body is a dictionary of dictionaries of strings, the shape of
      [{formData: {...}, photos: {...}}].
    - Everything the handler does to the outside (log records, calls of
      [requests.post]) is collected in a trace, in program order.  What the
      outside answers (the network, the clock, the random source, the
      base64 codec of the standard library) is read from a [World]. *)

From Stdlib Require Import String Ascii List ZArith NArith Lia Bool.
From Stdlib.Strings Require Import Byte.
From Stdlib Require Import DecimalString.
Import ListNotations.
Open Scope string_scope.

(* ================================================================== *)
(** ** Python values used by the handler *)

Module Py.

Definition nl : string := String (ascii_of_nat 10) "".

(** [bool(s)] for a string. *)
Definition truthy (s : string) : bool := negb (String.eqb s "").

(** [bool(x)] where [x] is the result of [dict.get(k)]: [None] is falsy. *)
Definition truthy_opt (o : option string) : bool :=
  match o with
  | Some s => truthy s
  | None => false
  end.

Definition dict (V : Type) : Type := list (string * V).

(** [d.get(k)] *)
Fixpoint get {V} (d : dict V) (k : string) : option V :=
  match d with
  | [] => None
  | (k', v) :: d' => if String.eqb k' k then Some v else get d' k
  end.

(** [d.get(k, default)] *)
Definition get_or {V} (d : dict V) (k : string) (default : V) : V :=
  match get d k with
  | Some v => v
  | None => default
  end.

(** [d[k] = v]: an existing key keeps its position, a new key goes last. *)
Fixpoint set {V} (d : dict V) (k : string) (v : V) : dict V :=
  match d with
  | [] => [(k, v)]
  | (k', v') :: d' =>
      if String.eqb k' k then (k', v) :: d' else (k', v') :: set d' k v
  end.

Definition items {V} (d : dict V) : list (string * V) := d.
Definition values {V} (d : dict V) : list V := map snd d.

(** [bool(d)] for a dictionary. *)
Definition truthy_dict {V} (d : dict V) : bool :=
  match d with
  | [] => false
  | _ :: _ => true
  end.

(** [str(n)] for a non-negative integer. *)
Definition str_nat (n : nat) : string := NilZero.string_of_uint (Nat.to_uint n).
Definition str_N (n : N) : string := NilZero.string_of_uint (N.to_uint n).

(** [c in s] for a one-character [c]. *)
Fixpoint contains (c : ascii) (s : string) : bool :=
  match s with
  | EmptyString => false
  | String a s' => Ascii.eqb a c || contains c s'
  end.

(** [s.split(c)] for a one-character separator. *)
Fixpoint split (c : ascii) (s : string) : list string :=
  match s with
  | EmptyString => [""]
  | String a s' =>
      if Ascii.eqb a c then "" :: split c s'
      else match split c s' with
           | [] => [String a ""]
           | p :: ps => String a p :: ps
           end
  end.

Definition in_range (lo hi c : ascii) : bool :=
  (N.leb (N_of_ascii lo) (N_of_ascii c)) && (N.leb (N_of_ascii c) (N_of_ascii hi)).

Definition is_digit (c : ascii) : bool := in_range "0" "9" c.
Definition is_lower (c : ascii) : bool := in_range "a" "z" c.
Definition is_upper (c : ascii) : bool := in_range "A" "Z" c.
Definition is_alpha (c : ascii) : bool := is_lower c || is_upper c.

Definition digit_val (c : ascii) : Z := Z.of_N (N_of_ascii c) - 48.

Definition upper_char (c : ascii) : ascii :=
  if is_lower c then ascii_of_N (N_of_ascii c - 32) else c.

(** [s.upper()] on ASCII text. *)
Fixpoint upper (s : string) : string :=
  match s with
  | EmptyString => EmptyString
  | String c s' => String (upper_char c) (upper s')
  end.

Fixpoint forallb_str (p : ascii -> bool) (s : string) : bool :=
  match s with
  | EmptyString => true
  | String c s' => p c && forallb_str p s'
  end.

Fixpoint filter_str (p : ascii -> bool) (s : string) : string :=
  match s with
  | EmptyString => EmptyString
  | String c s' => if p c then String c (filter_str p s') else filter_str p s'
  end.

(** [s.endswith(suffix)] *)
Definition endswith (s suffix : string) : bool :=
  let n := String.length s in
  let m := String.length suffix in
  Nat.leb m n && String.eqb (String.substring (n - m) m s) suffix.

End Py.

(* ================================================================== *)
(** ** Regular expressions: the fragment [re.match] is used on *)

Module Re.

Inductive regex : Type :=
| Void
| Eps
| Chr (p : ascii -> bool)
| Cat (r s : regex)
| Alt (r s : regex)
| Star (r : regex).

Definition Plus (r : regex) : regex := Cat r (Star r).
(** [r{2,}] *)
Definition AtLeast2 (r : regex) : regex := Cat r (Cat r (Star r)).
Definition Lit (c : ascii) : regex := Chr (Ascii.eqb c).

Fixpoint nullable (r : regex) : bool :=
  match r with
  | Void => false
  | Eps => true
  | Chr _ => false
  | Cat r s => nullable r && nullable s
  | Alt r s => nullable r || nullable s
  | Star _ => true
  end.

(** Brzozowski derivative. *)
Fixpoint deriv (c : ascii) (r : regex) : regex :=
  match r with
  | Void => Void
  | Eps => Void
  | Chr p => if p c then Eps else Void
  | Cat r s =>
      if nullable r then Alt (Cat (deriv c r) s) (deriv c s)
      else Cat (deriv c r) s
  | Alt r s => Alt (deriv c r) (deriv c s)
  | Star r => Cat (deriv c r) (Star r)
  end.

(** Whether the whole of [s] is in the language of [r]. *)
Fixpoint fullmatch (r : regex) (s : string) : bool :=
  match s with
  | EmptyString => nullable r
  | String c s' => fullmatch (deriv c r) s'
  end.

(** [$] of Python's [re] without [MULTILINE], as the last item of a
    pattern: it holds at the end of the text and also just before a
    newline that is the last character of the text.  Under [re.match] the
    pattern [^ body $] therefore accepts the texts of [body] and the
    texts of [body] followed by one newline. *)
Definition Dollar : regex := Alt Eps (Lit (ascii_of_nat 10)).

Fixpoint flatten (ss : list string) : string :=
  match ss with
  | [] => EmptyString
  | x :: ss' => x ++ flatten ss'
  end.

(** The language of a regular expression, for the correctness of
    [fullmatch]. *)
Fixpoint lang (r : regex) (s : string) : Prop :=
  match r with
  | Void => False
  | Eps => s = ""
  | Chr p => exists c, s = String c "" /\ p c = true
  | Cat r1 r2 => exists s1 s2, s = s1 ++ s2 /\ lang r1 s1 /\ lang r2 s2
  | Alt r1 r2 => lang r1 s \/ lang r2 s
  | Star r' =>
      exists ss : list string,
        s = flatten ss /\ Forall (fun x => x <> "" /\ lang r' x) ss
  end.

End Re.

(* ================================================================== *)
(** ** Field validators *)

Module Validators.
Import Py Re.

(** [[a-zA-Z0-9._%+-]] *)
Definition local_char (c : ascii) : bool :=
  is_alpha c || is_digit c
  || Ascii.eqb c "." || Ascii.eqb c "_" || Ascii.eqb c "%"
  || Ascii.eqb c "+" || Ascii.eqb c "-".

(** [[a-zA-Z0-9.-]] *)
Definition domain_char (c : ascii) : bool :=
  is_alpha c || is_digit c || Ascii.eqb c "." || Ascii.eqb c "-".

(** [r'^[a-zA-Z0-9._%+-]+@[a-zA-Z0-9.-]+\.[a-zA-Z]{2,}$'] *)
Definition email_body : regex :=
  Cat (Plus (Chr local_char))
    (Cat (Lit "@")
       (Cat (Plus (Chr domain_char))
          (Cat (Lit ".") (AtLeast2 (Chr is_alpha))))).

Definition pattern : regex := Cat email_body Dollar.

(** [re.match(pattern, email) is not None] *)
Definition validate_email (email : string) : bool := fullmatch pattern email.

(** [cleaned = re.sub(r'\D', '', phone); len(cleaned) >= 10] *)
Definition validate_phone (phone : string) : bool :=
  let cleaned := filter_str is_digit phone in
  Nat.leb 10 (String.length cleaned).

End Validators.

(* ================================================================== *)
(** ** Dates: [datetime.date], [strptime] with ['%Y-%m-%d'], and the
       birthdate validator *)

Module Dates.
Import Py.

Record date : Type := mkdate { year : Z; month : Z; day : Z }.

Definition is_leap (y : Z) : bool :=
  (y mod 4 =? 0)%Z && (negb (y mod 100 =? 0)%Z || (y mod 400 =? 0)%Z).

Definition days_in_month (y m : Z) : Z :=
  if (m =? 2)%Z then (if is_leap y then 29 else 28)%Z
  else if (m =? 4)%Z || (m =? 6)%Z || (m =? 9)%Z || (m =? 11)%Z then 30%Z
  else 31%Z.

(** The check of the [date(y, m, d)] constructor ([MINYEAR = 1],
    [MAXYEAR = 9999]); it raises [ValueError] when this is false. *)
Definition valid_date (d : date) : bool :=
  (1 <=? year d)%Z && (year d <=? 9999)%Z
  && (1 <=? month d)%Z && (month d <=? 12)%Z
  && (1 <=? day d)%Z && (day d <=? days_in_month (year d) (month d))%Z.

(** The regular expression [_strptime] builds from a format is matched by
    a backtracking engine; a parser here returns every way to match a
    prefix, in the order the engine tries them, so the head of the list is
    the match [re.match] reports.  Its [\d] is read over the ASCII
    digits. *)
Definition parser (A : Type) : Type := string -> list (A * string).

Definition pret {A} (a : A) : parser A := fun s => [(a, s)].

Definition pbind {A B} (p : parser A) (f : A -> parser B) : parser B :=
  fun s => flat_map (fun ar => f (fst ar) (snd ar)) (p s).

Definition palt {A} (p q : parser A) : parser A := fun s => (p s ++ q s)%list.

Definition pchar (ok : ascii -> bool) : parser ascii :=
  fun s =>
    match s with
    | String c r => if ok c then [(c, r)] else []
    | EmptyString => []
    end.

(** [int(text)] for a run of digits. *)
Definition int_of (cs : list ascii) : Z :=
  fold_left (fun acc c => acc * 10 + digit_val c)%Z cs 0%Z.

Definition digits2 (ok1 ok2 : ascii -> bool) : parser Z :=
  pbind (pchar ok1) (fun a => pbind (pchar ok2) (fun b => pret (int_of [a; b]))).

Definition digits1 (ok : ascii -> bool) : parser Z :=
  pbind (pchar ok) (fun a => pret (int_of [a])).

(** [%Y]: [(?P<Y>\d\d\d\d)] *)
Definition re_Y : parser Z :=
  pbind (pchar is_digit) (fun a =>
  pbind (pchar is_digit) (fun b =>
  pbind (pchar is_digit) (fun c =>
  pbind (pchar is_digit) (fun d => pret (int_of [a; b; c; d]))))).

(** [%m]: [(?P<m>1[0-2]|0[1-9]|[1-9])] *)
Definition re_m : parser Z :=
  palt (digits2 (Ascii.eqb "1") (in_range "0" "2"))
    (palt (digits2 (Ascii.eqb "0") (in_range "1" "9"))
       (digits1 (in_range "1" "9"))).

(** [%d]: [(?P<d>3[0-1]|[1-2]\d|0[1-9]|[1-9]| [1-9])]; [int] skips the
    blank of the last alternative. *)
Definition re_d : parser Z :=
  palt (digits2 (Ascii.eqb "3") (in_range "0" "1"))
    (palt (digits2 (in_range "1" "2") is_digit)
       (palt (digits2 (Ascii.eqb "0") (in_range "1" "9"))
          (palt (digits1 (in_range "1" "9"))
             (pbind (pchar (Ascii.eqb " ")) (fun _ => digits1 (in_range "1" "9")))))).

Definition format_regex : parser date :=
  pbind re_Y (fun y =>
  pbind (pchar (Ascii.eqb "-")) (fun _ =>
  pbind re_m (fun m =>
  pbind (pchar (Ascii.eqb "-")) (fun _ =>
  pbind re_d (fun d => pret (mkdate y m d)))))).

(** [datetime.strptime(s, '%Y-%m-%d').date()]; [None] stands for the
    [ValueError] raised when the text does not match the format, when
    unconverted text remains after the match, or when the fields are not a
    calendar date. *)
Definition strptime (s : string) : option date :=
  match format_regex s with
  | [] => None
  | (d, rest) :: _ =>
      if negb (String.eqb rest "") then None
      else if valid_date d then Some d
      else None
  end.

(** [(a, b) < (c, d)] on pairs of integers. *)
Definition tuple_lt (p q : Z * Z) : bool :=
  (fst p <? fst q)%Z || ((fst p =? fst q)%Z && (snd p <? snd q)%Z).

Definition bool_to_Z (b : bool) : Z := if b then 1%Z else 0%Z.

Definition age_on (today birth_date : date) : Z :=
  (year today - year birth_date
   - bool_to_Z (tuple_lt (month today, day today)
                         (month birth_date, day birth_date)))%Z.

Definition validate_birthdate (today : date) (birthdate : string) : bool :=
  match strptime birthdate with
  | Some birth_date => (18 <=? age_on today birth_date)%Z
  | None => false
  end.

Definition digit_char (n : Z) : ascii := ascii_of_N (Z.to_N (48 + n)).

Definition pad2 (n : Z) : string :=
  String (digit_char (n / 10)) (String (digit_char (n mod 10)) "").

Definition pad4 (n : Z) : string :=
  String (digit_char (n / 1000))
    (String (digit_char (n / 100 mod 10)) (pad2 (n mod 100))).

(** [d.isoformat()], that is ['%04d-%02d-%02d']. *)
Definition isoformat (d : date) : string :=
  pad4 (year d) ++ "-" ++ pad2 (month d) ++ "-" ++ pad2 (day d).

End Dates.

(* ================================================================== *)
(** ** Effects: the trace of a request and the world it runs in *)

Module Effects.
Import Py.

Definition bytes : Type := list byte.

Inductive level : Type := INFO | WARNING | ERROR.

(** The two calls of [requests.post] the dispatcher makes. *)
Inductive call : Type :=
| SendMessage (url : string) (json : dict string) (timeout : N)
| SendPhoto (url : string) (filename : string) (image_data : bytes)
    (mime : string) (data : dict string) (timeout : N).

Inductive event : Type :=
| Log (lvl : level) (msg : string)
| Post (c : call).

(** The exceptions the dispatcher tells apart: those of
    [requests.exceptions.RequestException] and every other [Exception];
    the text is [str(e)]. *)
Inductive exn : Type :=
| RequestException (msg : string)
| Exception (msg : string).

Definition str_exn (e : exn) : string :=
  match e with
  | RequestException m => m
  | Exception m => m
  end.

(** What [requests.post] does: it raises, or returns a response. *)
Inductive post_result : Type :=
| Raises (e : exn)
| Response (status_code : N) (reason : string).

Record World : Type := mkWorld {
  date_today : Dates.date;
  TELEGRAM_BOT_TOKEN : string;
  TELEGRAM_CHAT_ID : string;
  requests_post : call -> post_result;
  (** [base64.b64decode]: the bytes, or the text of the exception. *)
  b64decode : string -> string + bytes;
  (** the bytes of the system's random source, in the order they are drawn *)
  urandom : nat -> byte
}.

(** A computation that appends to the trace. *)
Definition Eff (A : Type) : Type := (A * list event)%type.

Definition ret {A} (a : A) : Eff A := (a, []).

Definition bind {A B} (m : Eff A) (f : A -> Eff B) : Eff B :=
  let r := f (fst m) in (fst r, (snd m ++ snd r)%list).

Definition emit (e : event) : Eff unit := (tt, [e]).

Definition logger (lvl : level) (msg : string) : Eff unit := emit (Log lvl msg).

Definition result {A} (m : Eff A) : A := fst m.
Definition trace {A} (m : Eff A) : list event := snd m.

(** [for x in l: body(x)] *)
Fixpoint for_each {A} (body : A -> Eff unit) (l : list A) : Eff unit :=
  match l with
  | [] => ret tt
  | x :: l' => bind (body x) (fun _ => for_each body l')
  end.

Definition call_url (c : call) : string :=
  match c with
  | SendMessage u _ _ => u
  | SendPhoto u _ _ _ _ _ => u
  end.

(** [Response.raise_for_status()]: an [HTTPError], which is a
    [RequestException], for the statuses 400 to 599. *)
Definition raise_for_status (url : string) (status_code : N) (reason : string)
  : option exn :=
  if (400 <=? status_code)%N && (status_code <? 500)%N then
    Some (RequestException
            (str_N status_code ++ " Client Error: " ++ reason ++ " for url: " ++ url))
  else if (500 <=? status_code)%N && (status_code <? 600)%N then
    Some (RequestException
            (str_N status_code ++ " Server Error: " ++ reason ++ " for url: " ++ url))
  else None.

(** [response = requests.post(...); response.raise_for_status()] *)
Definition post (w : World) (c : call) : Eff (exn + unit) :=
  bind (emit (Post c)) (fun _ =>
    match requests_post w c with
    | Raises e => ret (inl e)
    | Response status_code reason =>
        match raise_for_status (call_url c) status_code reason with
        | Some e => ret (inl e)
        | None => ret (inr tt)
        end
    end).

Definition hex_digit (n : N) : ascii :=
  if (n <? 10)%N then ascii_of_N (48 + n) else ascii_of_N (87 + n).

(** [binascii.hexlify(bs).decode('ascii')] *)
Fixpoint hexlify (bs : bytes) : string :=
  match bs with
  | [] => EmptyString
  | b :: bs' =>
      String (hex_digit (Byte.to_N b / 16))
        (String (hex_digit (Byte.to_N b mod 16)) (hexlify bs'))
  end.

(** [secrets.token_bytes(n)] and [secrets.token_hex(n)] *)
Definition token_bytes (w : World) (n : nat) : bytes := map (urandom w) (seq 0 n).
Definition token_hex (w : World) (n : nat) : string := hexlify (token_bytes w n).

End Effects.

Module EffNotations.
Notation "x <- m ;; k" := (Effects.bind m (fun x => k))
  (at level 61, m at next level, right associativity).
Notation "m ;;; k" := (Effects.bind m (fun _ => k))
  (at level 61, right associativity).
End EffNotations.

(* ================================================================== *)
(** ** The image decoder and the dispatcher *)

Module Server.
Import Py Effects EffNotations Validators.

(** [validate_image_size(image_data, max_size_mb=10)] *)
Definition validate_image_size (image_data : bytes) (max_size_mb : N) : bool :=
  let max_size := (max_size_mb * 1024 * 1024)%N in
  (N.of_nat (List.length image_data) <=? max_size)%N.

Record request : Type := mkRequest {
  is_json : bool;
  get_json : dict (dict string)
}.

(** [jsonify({success, message[, applicationId]}), status] *)
Record response : Type := mkResponse {
  status : N;
  success : bool;
  message : string;
  applicationId : option string
}.

Definition job_required_fields : dict string :=
  [ ("firstName", "Nome é obrigatório");
    ("email", "Email é obrigatório");
    ("phone", "Telefone é obrigatório");
    ("country", "País é obrigatório");
    ("employmentStatus", "Situação de emprego é obrigatória") ].

Definition optional_fields : dict string :=
  [ ("lastName", "N/A");
    ("addressLine1", "Não informado - Candidatura Online");
    ("city", "Não informado");
    ("state", "Não informado");
    ("postalCode", "00000-000");
    ("income", "Não informado");
    ("employmentStatus", "candidate") ].

Definition card_required_fields : dict string :=
  [ ("firstName", "Nome é obrigatório");
    ("lastName", "Sobrenome é obrigatório");
    ("email", "Email é obrigatório");
    ("phone", "Telefone é obrigatório");
    ("idNumber", "Número de identificação é obrigatório");
    ("birthdate", "Data de nascimento é obrigatória");
    ("country", "País é obrigatório");
    ("addressLine1", "Endereço é obrigatório");
    ("city", "Cidade é obrigatória");
    ("state", "Estado é obrigatório");
    ("postalCode", "CEP é obrigatório");
    ("currency", "Moeda é obrigatória");
    ("income", "Renda anual é obrigatória");
    ("occupation", "Ocupação é obrigatória");
    ("employmentStatus", "Situação de emprego é obrigatória");
    ("cardType", "Tipo de cartão é obrigatório") ].

Definition required_photos : list string := ["front"; "back"; "selfie"].

(** [form_data.get('applicationType') == 'job_application'
     or form_data.get('cardType') == 'Vaga de Emprego'] *)
Definition is_job_application (form_data : dict string) : bool :=
  match get form_data "applicationType" with
  | Some v => String.eqb v "job_application"
  | None => false
  end
  || match get form_data "cardType" with
     | Some v => String.eqb v "Vaga de Emprego"
     | None => false
     end.

(** [for field, default_value in optional_fields.items():
       if not form_data.get(field): form_data[field] = default_value] *)
Definition fill_optional (defaults form_data : dict string) : dict string :=
  fold_left
    (fun fd kv =>
       if negb (truthy_opt (get fd (fst kv))) then set fd (fst kv) (snd kv) else fd)
    (items defaults) form_data.

(** The loop over [required_fields.items()]: the first entry whose field
    is absent or empty in [form_data], if there is one. *)
Fixpoint first_missing (required_fields form_data : dict string)
  : option (string * string) :=
  match required_fields with
  | [] => None
  | (field, msg) :: rest =>
      if negb (truthy_opt (get form_data field)) then Some (field, msg)
      else first_missing rest form_data
  end.

(** The loop over [required_photos]. *)
Fixpoint first_missing_photo (slots : list string) (photos : dict string)
  : option string :=
  match slots with
  | [] => None
  | photo_type :: rest =>
      if negb (truthy_opt (get photos photo_type)) then Some photo_type
      else first_missing_photo rest photos
  end.

(** [sum(1 for photo in photos.values() if photo)] *)
Definition count_photos (photos : dict string) : nat :=
  List.length (filter truthy (values photos)).

Definition photos_line (photos : dict string) : string :=
  "*Fotos anexadas:* " ++ str_nat (count_photos photos) ++ "/3".

Definition job_lines (form_data : dict string) : list string :=
  let g := get_or form_data in
  [ "📋 *Nova Candidatura Recebida* 📋";
    "";
    "*Informações Pessoais:*";
    "• Nome: " ++ g "firstName" "" ++ " " ++ g "lastName" "";
    "• Email: " ++ g "email" "";
    "• Telefone: " ++ g "phone" "";
    "• Celular: " ++ g "cellphone" "Não informado";
    "• País: " ++ g "country" "";
    "• Nacionalidade: " ++ g "nationality" "Não informado";
    "• Data Nascimento: " ++ g "birthdate" "Não informado";
    "";
    "*Informações Profissionais:*";
    "• Área de Interesse: " ++ g "positionInterest" "Não informado";
    "• Situação de Emprego: " ++ g "employmentStatus" "Não informado";
    "• Profissão: " ++ g "occupation" "Não informado";
    "• Salário Atual: " ++ g "income" "Não informado";
    "• Instituições: " ++ g "institutions" "Não informado";
    "• Experiência: " ++ g "experience" "Não informado";
    "• Escolaridade: " ++ g "education" "Não informado";
    "• Idiomas: " ++ g "languages" "Não informado";
    "• Habilidades: " ++ g "skills" "Não informado";
    "";
    "*Carta de Apresentação:*";
    g "coverLetter" "Não informada";
    "" ].

Definition card_lines (form_data : dict string) : list string :=
  let g := get_or form_data in
  [ "📋 *Nova solicitação de NextCard* 📋";
    "";
    "*Informações Pessoais:*";
    "• Nome: " ++ g "firstName" "" ++ " " ++ g "lastName" "";
    "• Email: " ++ g "email" "";
    "• Telefone: " ++ g "phone" "";
    "• ID/Passaporte: " ++ g "idNumber" "";
    "• Data de Nascimento: " ++ g "birthdate" "";
    "";
    "*Informações de Endereço:*";
    "• País: " ++ g "country" "";
    "• Endereço: " ++ g "addressLine1" "";
    "• Endereço 2: " ++ g "addressLine2" "";
    "• Cidade: " ++ g "city" "";
    "• Estado: " ++ g "state" "";
    "• Código Postal: " ++ g "postalCode" "";
    "";
    "*Informações Financeiras:*";
    "• Moeda: " ++ g "currency" "";
    "• Renda Anual: " ++ g "income" "";
    "• Ocupação: " ++ g "occupation" "";
    "• Situação de Emprego: " ++ g "employmentStatus" "";
    "• Tipo de Cartão: " ++ g "cardType" "";
    "" ].

(** The two f-string templates of the handler, line by line. *)
Definition format_message (is_job : bool) (form_data photos : dict string)
  : string :=
  String.concat nl
    ((if is_job then job_lines form_data else card_lines form_data)
     ++ [photos_line photos])%list.

Definition resp400 (msg : string) : response := mkResponse 400 false msg None.
Definition resp500 (msg : string) : response := mkResponse 500 false msg None.

(** What the handler has in hand once every check has passed. *)
Record validated : Type := mkValidated {
  v_is_job : bool;
  v_form_data : dict string;
  v_photos : dict string
}.

Section WithWorld.
Variable w : World.

Definition process_image_data (photo : string) : Eff (exn + bytes) :=
  let decoded :=
    if contains "," photo then b64decode w (nth 1 (split "," photo) "")
    else b64decode w photo in
  let checked :=
    match decoded with
    | inl msg => inl (Exception msg)
    | inr image_data =>
        if negb (validate_image_size image_data 10)
        then inl (Exception "Imagem muito grande")
        else inr image_data
    end in
  match checked with
  | inl e =>
      logger ERROR ("Erro ao processar imagem: " ++ str_exn e) ;;;
      ret (inl e)
  | inr image_data => ret (inr image_data)
  end.

Definition photo_call (p_type : string) (image_data : bytes) : call :=
  SendPhoto
    ("https://api.telegram.org/bot" ++ TELEGRAM_BOT_TOKEN w ++ "/sendPhoto")
    (p_type ++ "_id.jpg") image_data "image/jpeg"
    [ ("chat_id", TELEGRAM_CHAT_ID w);
      ("caption", "Foto do " ++ p_type ++ " do documento") ]
    30.

Definition text_call (msg : string) : call :=
  SendMessage
    ("https://api.telegram.org/bot" ++ TELEGRAM_BOT_TOKEN w ++ "/sendMessage")
    [ ("chat_id", TELEGRAM_CHAT_ID w);
      ("text", msg);
      ("parse_mode", "Markdown") ]
    10.

(** The body of the loop over [photo_data.items()] (lines 121-144). *)
Definition send_photo (item : string * string) : Eff unit :=
  let p_type := fst item in
  let photo := snd item in
  if truthy photo then
    r <- process_image_data photo ;;
    match r with
    | inl e =>
        logger ERROR ("Erro ao processar foto " ++ p_type ++ ": " ++ str_exn e)
    | inr image_data =>
        r <- post w (photo_call p_type image_data) ;;
        match r with
        | inr _ => logger INFO ("Foto " ++ p_type ++ " enviada com sucesso")
        | inl (RequestException m) =>
            logger ERROR ("Erro ao enviar foto " ++ p_type ++ " para Telegram: " ++ m)
        | inl (Exception m) =>
            logger ERROR ("Erro ao processar foto " ++ p_type ++ ": " ++ m)
        end
    end
  else ret tt.

Definition send_to_telegram (msg : string) (photo_data : dict string)
  : Eff bool :=
  r <- post w (text_call msg) ;;
  match r with
  | inr _ =>
      (if truthy_dict photo_data
       then for_each send_photo (items photo_data)
       else ret tt) ;;;
      logger INFO "Mensagem enviada para Telegram com sucesso" ;;;
      ret true
  | inl (RequestException m) =>
      logger ERROR ("Erro na API do Telegram: " ++ m) ;;;
      ret false
  | inl (Exception m) =>
      logger ERROR ("Erro inesperado ao enviar para Telegram: " ++ m) ;;;
      ret false
  end.

(** Lines 161-244 of [handle_submission]: every early [return] is a
    response on the left; a submission that reaches the formatter is on
    the right. *)
Definition validate_submission (req : request) : Eff (response + validated) :=
  if negb (is_json req) then
    ret (inl (resp400 "Content-Type must be application/json"))
  else
    let data := get_json req in
    if negb (truthy_dict data) then ret (inl (resp400 "Nenhum dado recebido"))
    else
      let form_data := get_or data "formData" [] in
      let photos := get_or data "photos" [] in
      logger INFO ("Tentativa de submissão recebida - Tipo: "
                   ++ get_or form_data "applicationType" "nextcard") ;;;
      let is_job := is_job_application form_data in
      let required_fields :=
        if is_job then job_required_fields else card_required_fields in
      let form_data :=
        if is_job then fill_optional optional_fields form_data else form_data in
      match first_missing required_fields form_data with
      | Some (field, msg) =>
          logger WARNING ("Campo obrigatório faltando: " ++ field) ;;;
          ret (inl (resp400 msg))
      | None =>
          if negb (validate_email (get_or form_data "email" "")) then
            ret (inl (resp400 "Email inválido"))
          else if negb (validate_phone (get_or form_data "phone" "")) then
            ret (inl (resp400 "Número de telefone inválido"))
          else if negb is_job
                  && negb (Dates.validate_birthdate (date_today w)
                             (get_or form_data "birthdate" "")) then
            ret (inl (resp400 "Você deve ter pelo menos 18 anos"))
          else
            match first_missing_photo required_photos photos with
            | Some photo_type =>
                ret (inl (resp400 ("Foto " ++ photo_type ++ " é obrigatória")))
            | None => ret (inr (mkValidated is_job form_data photos))
            end
      end.

(** Lines 246-317: format, dispatch, answer. *)
Definition dispatch (v : validated) : Eff response :=
  let msg := format_message (v_is_job v) (v_form_data v) (v_photos v) in
  ok <- send_to_telegram msg (v_photos v) ;;
  if ok then
    let prefix := if v_is_job v then "JH" else "NC" in
    let application_id := prefix ++ upper (token_hex w 4) in
    logger INFO ("Submissão bem-sucedida - ID: " ++ application_id) ;;;
    ret (mkResponse 200 true "Dados enviados com sucesso" (Some application_id))
  else
    logger ERROR "Falha ao enviar para Telegram" ;;;
    ret (resp500 "Erro ao enviar para o Telegram").

(** With a body of this shape no statement of the handler raises, so the
    last [except] clause (lines 319-321) has no run here. *)
Definition handle_submission (req : request) : Eff response :=
  r <- validate_submission req ;;
  match r with
  | inl resp => ret resp
  | inr v => dispatch v
  end.

End WithWorld.

End Server.

(* ================================================================== *)
(** ** A concrete world and concrete submissions, to run the model *)

(** [base64.b64decode(s)] with its default arguments, after CPython's
    [binascii.a2b_base64] in its lenient mode: characters outside the
    alphabet are skipped, a pad that completes a quad ends the decoding, and
    an incomplete quad at the end of the text is an error.  The properties
    of the pipeline are proved for every decoder a [World] may carry; this
    one serves the examples. *)
Module Base64.
Import Py Effects.

Definition b64_index (c : ascii) : option N :=
  let n := N_of_ascii c in
  if is_upper c then Some (n - 65)%N
  else if is_lower c then Some (n - 97 + 26)%N
  else if is_digit c then Some (n - 48 + 52)%N
  else if Ascii.eqb c "+" then Some 62%N
  else if Ascii.eqb c "/" then Some 63%N
  else None.

Definition byte_of (n : N) : byte :=
  match Byte.of_N (n mod 256) with
  | Some b => b
  | None => x00
  end.

Fixpoint a2b_base64 (s : string) (quad_pos leftchar pads : N) (acc : bytes)
  : string + bytes :=
  match s with
  | EmptyString =>
      if (quad_pos =? 0)%N then inr (rev acc)
      else if (quad_pos =? 1)%N then
        inl ("Invalid base64-encoded string: number of data characters ("
             ++ str_N (N.of_nat (List.length acc) / 3 * 4 + 1)
             ++ ") cannot be 1 more than a multiple of 4")
      else inl "Incorrect padding"
  | String c s' =>
      if Ascii.eqb c "=" then
        if (2 <=? quad_pos)%N && (4 <=? quad_pos + (pads + 1))%N then inr (rev acc)
        else a2b_base64 s' quad_pos leftchar
               (if (2 <=? quad_pos)%N then pads + 1 else pads)%N acc
      else
        match b64_index c with
        | None => a2b_base64 s' quad_pos leftchar pads acc
        | Some v =>
            if (quad_pos =? 0)%N then a2b_base64 s' 1 v 0 acc
            else if (quad_pos =? 1)%N then
              a2b_base64 s' 2 (N.land v 15) 0
                (byte_of (N.lor (N.shiftl leftchar 2) (N.shiftr v 4)) :: acc)
            else if (quad_pos =? 2)%N then
              a2b_base64 s' 3 (N.land v 3) 0
                (byte_of (N.lor (N.shiftl leftchar 4) (N.shiftr v 2)) :: acc)
            else
              a2b_base64 s' 0 0 0
                (byte_of (N.lor (N.shiftl leftchar 6) v) :: acc)
        end
  end.

Definition b64decode (s : string) : string + bytes :=
  if forallb_str (fun c => (N_of_ascii c <? 128)%N) s
  then a2b_base64 s 0 0 0 []
  else inl "string argument should contain only ASCII characters".

End Base64.

Module Examples.
Import Py Effects Server.

Definition some_urandom (i : nat) : byte := nth i [xde; xad; xbe; xef] x00.

(** Every call of the messaging API answers 200. *)
Definition world_up : World :=
  mkWorld (Dates.mkdate 2024 6 15) "TOKEN" "CHAT"
    (fun _ => Response 200 "OK") Base64.b64decode some_urandom.

(** The text call meets a network error. *)
Definition world_text_down : World :=
  mkWorld (Dates.mkdate 2024 6 15) "TOKEN" "CHAT"
    (fun c =>
       match c with
       | SendMessage _ _ _ => Raises (RequestException "Connection refused")
       | SendPhoto _ _ _ _ _ _ => Response 200 "OK"
       end)
    Base64.b64decode some_urandom.

(** The text call is answered with a server error. *)
Definition world_text_503 : World :=
  mkWorld (Dates.mkdate 2024 6 15) "TOKEN" "CHAT"
    (fun c =>
       match c with
       | SendMessage _ _ _ => Response 503 "Service Unavailable"
       | SendPhoto _ _ _ _ _ _ => Response 200 "OK"
       end)
    Base64.b64decode some_urandom.

(** The upload of the back photo meets a network error. *)
Definition world_back_down : World :=
  mkWorld (Dates.mkdate 2024 6 15) "TOKEN" "CHAT"
    (fun c =>
       match c with
       | SendMessage _ _ _ => Response 200 "OK"
       | SendPhoto _ filename _ _ _ _ =>
           if String.eqb filename "back_id.jpg"
           then Raises (RequestException "Read timed out")
           else Response 200 "OK"
       end)
    Base64.b64decode some_urandom.

Definition three_photos : dict string :=
  [ ("front", "data:image/jpeg;base64,QUJD");
    ("back", "REVG");
    ("selfie", "R0hJ") ].

(** The three slots in another order, and a fourth key. *)
Definition four_photos : dict string :=
  [ ("selfie", "R0hJ");
    ("front", "data:image/jpeg;base64,QUJD");
    ("back", "REVG");
    ("extra", "SktM") ].

(** The front photo is not base64 text. *)
Definition bad_front_photos : dict string :=
  [ ("front", "A"); ("back", "REVG"); ("selfie", "R0hJ") ].

Definition card_form : dict string :=
  [ ("firstName", "Ana"); ("lastName", "Silva");
    ("email", "ana@example.com"); ("phone", "+55 (11) 91234-5678");
    ("idNumber", "123456789"); ("birthdate", "1990-03-07");
    ("country", "BR"); ("addressLine1", "Rua A, 1");
    ("city", "Sao Paulo"); ("state", "SP"); ("postalCode", "01000-000");
    ("currency", "BRL"); ("income", "50000"); ("occupation", "Engineer");
    ("employmentStatus", "employed"); ("cardType", "Gold") ].

(** A job application that leaves out every optional field, among them
    [employmentStatus]. *)
Definition job_form : dict string :=
  [ ("applicationType", "job_application");
    ("firstName", "Ana"); ("lastName", "");
    ("email", "ana@example.com"); ("phone", "11912345678");
    ("country", "BR") ].

Definition submission (form_data photos : dict string) : request :=
  mkRequest true [ ("formData", form_data); ("photos", photos) ].

Definition card_request : request := submission card_form three_photos.
Definition job_request : request := submission job_form three_photos.

(** A card application whose email ends in a newline. *)
Definition newline_email : string := "ana@example.com" ++ nl.
Definition newline_email_request : request :=
  submission (set card_form "email" newline_email) three_photos.

End Examples.

(* ================================================================== *)
(** ** What is observed of a run *)

Module Observe.
Import Py Effects Server Validators.

(** The call fails for the dispatcher: [requests.post] raises (a network
    error), or the response carries a status for which
    [raise_for_status] raises (400 to 599). *)
Definition call_failed (w : World) (c : call) : bool :=
  match requests_post w c with
  | Raises _ => true
  | Response status_code _ => (400 <=? status_code)%N && (status_code <? 600)%N
  end.

Definition is_outbound (e : event) : bool :=
  match e with
  | Post _ => true
  | Log _ _ => false
  end.

Definition is_warning (e : event) : bool :=
  match e with
  | Log WARNING _ => true
  | _ => false
  end.

(** The media uploads of a trace, in order. *)
Fixpoint uploads (tr : list event) : list call :=
  match tr with
  | [] => []
  | Post (SendPhoto u f d m c t) :: tr' => SendPhoto u f d m c t :: uploads tr'
  | _ :: tr' => uploads tr'
  end.

Definition upload_filename (c : call) : string :=
  match c with
  | SendPhoto _ filename _ _ _ _ => filename
  | SendMessage _ _ _ => ""
  end.

(** The text messages of a trace, in order. *)
Fixpoint texts (tr : list event) : list string :=
  match tr with
  | [] => []
  | Post (SendMessage _ json _) :: tr' => get_or json "text" "" :: texts tr'
  | _ :: tr' => texts tr'
  end.

(** The upload the dispatcher attempts for an entry of the photos
    mapping: none for an empty payload or one that does not decode. *)
Definition upload_of (w : World) (item : string * string) : list call :=
  if truthy (snd item) then
    match result (process_image_data w (snd item)) with
    | inr image_data => [photo_call w (fst item) image_data]
    | inl _ => []
    end
  else [].

Definition not_newline (c : ascii) : bool := negb (Ascii.eqb c (ascii_of_nat 10)).

Definition is_upper_hex (c : ascii) : bool := is_digit c || in_range "A" "F" c.

(** The shape the specification names for an email, with the character
    classes of the source's pattern: the whole text is
    [local @ domain . tld]. *)
Definition local_at_domain_tld (s : string) : Prop :=
  exists local domain tld : string,
    s = local ++ "@" ++ domain ++ "." ++ tld
    /\ local <> "" /\ forallb_str local_char local = true
    /\ domain <> "" /\ forallb_str domain_char domain = true
    /\ 2 <= String.length tld /\ forallb_str is_alpha tld = true.

(** The required fields of a schema that no default fills: all of them
    for a card application; for a job application those outside
    [optional_fields]. *)
Definition has_default (field : string) : bool :=
  match get optional_fields field with
  | Some _ => true
  | None => false
  end.

Definition undefaulted_required (is_job : bool) : dict string :=
  if is_job
  then filter (fun kv => negb (has_default (fst kv))) job_required_fields
  else card_required_fields.

Definition form_of (req : request) : dict string := get_or (get_json req) "formData" [].
Definition photos_of (req : request) : dict string := get_or (get_json req) "photos" [].

(** The form the checks run on: the defaults are in when the discriminator
    selects a job application. *)
Definition checked_form (req : request) : dict string :=
  if is_job_application (form_of req)
  then fill_optional optional_fields (form_of req)
  else form_of req.

Definition required_of (req : request) : dict string :=
  if is_job_application (form_of req) then job_required_fields else card_required_fields.

Definition received (req : request) : event :=
  Log INFO ("Tentativa de submissão recebida - Tipo: "
            ++ get_or (form_of req) "applicationType" "nextcard").

(** The text the handler formats for a validated submission, and the
    identifier it answers with. *)
Definition message_of (v : validated) : string :=
  format_message (v_is_job v) (v_form_data v) (v_photos v).

Definition application_id (w : World) (v : validated) : string :=
  (if v_is_job v then "JH" else "NC") ++ upper (token_hex w 4).

End Observe.

(* ================================================================== *)
(** ** Further observations: validators, decoder, answers *)

Module More.
Import Py Effects Server Validators Observe.

(** The number of characters of a class in a text. *)
Fixpoint count_str (p : ascii -> bool) (s : string) : nat :=
  match s with
  | EmptyString => 0
  | String c s' => (if p c then 1 else 0) + count_str p s'
  end.

Definition is_at (c : ascii) : bool := Ascii.eqb c "@".
Definition is_comma (c : ascii) : bool := Ascii.eqb c ",".
Definition no_comma (s : string) : bool := negb (contains "," s).

(** [a <= b] on [datetime.date]. *)
Definition date_le (a b : Dates.date) : Prop :=
  (Dates.year a < Dates.year b
   \/ (Dates.year a = Dates.year b
       /\ (Dates.month a < Dates.month b
           \/ (Dates.month a = Dates.month b /\ Dates.day a <= Dates.day b))))%Z.

(** A month or a day written without a leading zero. *)
Definition unpadded (n : Z) : string :=
  if (n <? 10)%Z then String (Dates.digit_char n) "" else Dates.pad2 n.

Definition loose_format (d : Dates.date) : string :=
  Dates.pad4 (Dates.year d) ++ "-" ++ unpadded (Dates.month d)
  ++ "-" ++ unpadded (Dates.day d).

(** The size ceiling of [validate_image_size] with its default argument. *)
Definition max_image_bytes : N := 10485760.


(** Reading back the two characters [hexlify] writes for a byte. *)
Definition unhex_digit (c : ascii) : N :=
  if is_digit c then (N_of_ascii c - 48)%N else (N_of_ascii c - 55)%N.

Fixpoint unhexlify (s : string) : list N :=
  match s with
  | String a (String b r) => (16 * unhex_digit a + unhex_digit b)%N :: unhexlify r
  | _ => []
  end.

(** Two worlds the caller cannot tell apart before the uploads: the same
    date, the same fate of every text call, the same four random bytes. *)
Definition same_for_caller (w1 w2 : World) : Prop :=
  date_today w1 = date_today w2
  /\ (forall msg, call_failed w1 (text_call w1 msg) = call_failed w2 (text_call w2 msg))
  /\ (forall i, i < 4 -> urandom w1 i = urandom w2 i).

(** A world whose uploads all fail and whose decoder rejects everything,
    otherwise as [world_up]. *)
Definition world_uploads_down : World :=
  mkWorld (Dates.mkdate 2024 6 15) "OTHER" "ELSEWHERE"
    (fun c =>
       match c with
       | SendMessage _ _ _ => Response 200 "OK"
       | SendPhoto _ _ _ _ _ _ => Raises (RequestException "Connection reset")
       end)
    (fun _ => inl "Incorrect padding") Examples.some_urandom.

Definition call_timeout (c : call) : N :=
  match c with
  | SendMessage _ _ t => t
  | SendPhoto _ _ _ _ _ t => t
  end.

Definition call_chat_id (c : call) : option string :=
  match c with
  | SendMessage _ json _ => get json "chat_id"
  | SendPhoto _ _ _ _ data _ => get data "chat_id"
  end.

Definition outbound_calls (tr : list event) : list call :=
  flat_map (fun e => match e with Post c => [c] | Log _ _ => [] end) tr.

End More.

(* ================================================================== *)
(** * Properties *)

(** ** Dictionaries *)

Section DictFacts.
Import Py.
Context {V : Type}.

Lemma get_set_same (d : dict V) k v : get (set d k v) k = Some v.
Proof.
  induction d as [|[k' v'] d IH]; simpl.
  - now rewrite String.eqb_refl.
  - destruct (String.eqb k' k) eqn:E; simpl; rewrite E; auto.
Qed.

Lemma get_set_other (d : dict V) k k' v : k <> k' -> get (set d k v) k' = get d k'.
Proof.
  intros Hne. induction d as [|[k0 v0] d IH]; simpl.
  - destruct (String.eqb k k') eqn:E; auto.
    apply String.eqb_eq in E. contradiction.
  - destruct (String.eqb k0 k) eqn:E; simpl.
    + apply String.eqb_eq in E. subst k0.
      destruct (String.eqb k k') eqn:E'; auto.
      apply String.eqb_eq in E'. contradiction.
    + now rewrite IH.
Qed.

Lemma get_In (d : dict V) k v : get d k = Some v -> In (k, v) d.
Proof.
  induction d as [|[k' v'] d IH]; simpl; [discriminate|].
  destruct (String.eqb k' k) eqn:E.
  - intros [= ->]. apply String.eqb_eq in E. subst. now left.
  - intros H. right. auto.
Qed.

Lemma get_None_not_In (d : dict V) k : get d k = None -> ~ In k (map fst d).
Proof.
  induction d as [|[k' v'] d IH]; simpl; [tauto|].
  destruct (String.eqb k' k) eqn:E; [discriminate|].
  intros H [Hk|Hk]; [|now apply IH].
  subst. now rewrite String.eqb_refl in E.
Qed.

Lemma In_get_NoDup (d : dict V) k v :
  NoDup (map fst d) -> In (k, v) d -> get d k = Some v.
Proof.
  induction d as [|[k' v'] d IH]; simpl; [tauto|].
  intros Hnd [Hin|Hin].
  - injection Hin as -> ->. now rewrite String.eqb_refl.
  - inversion Hnd; subst.
    destruct (String.eqb k' k) eqn:E; [|auto].
    apply String.eqb_eq in E. subst.
    exfalso. apply H1. apply (in_map fst) in Hin. exact Hin.
Qed.

End DictFacts.

(** ** Regular expressions: [fullmatch] decides [lang] *)

Section RegexFacts.
Import Py Re.

Lemma append_nil_r (s : string) : s ++ "" = s.
Proof. induction s; simpl; congruence. Qed.

Lemma append_assoc (a b c : string) : (a ++ b) ++ c = a ++ (b ++ c).
Proof. induction a; simpl; congruence. Qed.

Lemma append_eq_nil (a b : string) : a ++ b = "" -> a = "" /\ b = "".
Proof. destruct a; simpl; [auto | discriminate]. Qed.

Lemma length_append (a b : string) :
  String.length (a ++ b) = String.length a + String.length b.
Proof. induction a; simpl; congruence. Qed.

Lemma nullable_lang r : nullable r = true <-> lang r "".
Proof.
  induction r; simpl.
  - split; [discriminate | tauto].
  - tauto.
  - split; [discriminate | intros (c & H & _); discriminate].
  - rewrite andb_true_iff, IHr1, IHr2. split.
    + intros [H1 H2]. exists "", "". auto.
    + intros (s1 & s2 & E & H1 & H2). symmetry in E.
      apply append_eq_nil in E as [-> ->]. auto.
  - rewrite orb_true_iff, IHr1, IHr2. tauto.
  - split; [|auto]. intros _. exists []. auto.
Qed.

Lemma deriv_lang c r : forall s, lang (deriv c r) s <-> lang r (String c s).
Proof.
  induction r; intros s; simpl.
  - tauto.
  - split; [tauto | discriminate].
  - destruct (p c) eqn:E; simpl.
    + split.
      * intros ->. eauto.
      * intros (c' & [= <- ->] & _). reflexivity.
    + split; [tauto|]. intros (c' & [= <- _] & H). congruence.
  - assert (Hcat : lang (Cat (deriv c r1) r2) s <->
                   exists s1 s2, String c s = s1 ++ s2 /\ s1 <> ""
                                 /\ lang r1 s1 /\ lang r2 s2).
    { simpl. split.
      - intros (s1 & s2 & -> & H1 & H2). apply IHr1 in H1.
        exists (String c s1), s2. repeat split; auto. discriminate.
      - intros (s1 & s2 & E & Hne & H1 & H2).
        destruct s1 as [|c' s1]; [congruence|]. simpl in E.
        injection E as <- ->. exists s1, s2. rewrite IHr1. auto. }
    destruct (nullable r1) eqn:N.
    + change (lang (Cat (deriv c r1) r2) s \/ lang (deriv c r2) s <->
              exists s1 s2, String c s = s1 ++ s2 /\ lang r1 s1 /\ lang r2 s2).
      rewrite Hcat, IHr2. split.
      * intros [(s1 & s2 & E & _ & H1 & H2) | H]; [eauto|].
        exists "", (String c s). apply nullable_lang in N. auto.
      * intros (s1 & s2 & E & H1 & H2).
        destruct s1 as [|c' s1].
        -- right. simpl in E. now rewrite E.
        -- left. exists (String c' s1), s2. repeat split; auto. discriminate.
    + rewrite Hcat. split.
      * intros (s1 & s2 & E & _ & H1 & H2). eauto.
      * intros (s1 & s2 & E & H1 & H2). exists s1, s2. repeat split; auto.
        intros ->. apply nullable_lang in H1. congruence.
  - rewrite IHr1, IHr2. tauto.
  - split.
    + intros (s1 & s2 & -> & H1 & ss & -> & Hss). apply IHr in H1.
      exists (String c s1 :: ss). split; [reflexivity|].
      constructor; [split; [discriminate | assumption] | assumption].
    + intros (ss & E & Hss).
      destruct ss as [|x ss]; [discriminate|].
      inversion Hss as [|? ? [Hne Hx] Hss']; subst.
      destruct x as [|c' x]; [congruence|].
      simpl in E. injection E as <- ->.
      exists x, (flatten ss). split; [reflexivity|]. split; [now apply IHr|].
      exists ss. auto.
Qed.

Lemma fullmatch_lang s : forall r, fullmatch r s = true <-> lang r s.
Proof.
  induction s as [|c s IH]; intros r; simpl.
  - apply nullable_lang.
  - rewrite IH. apply deriv_lang.
Qed.

(** The language of a starred character class. *)
Lemma lang_star_class p s : lang (Star (Chr p)) s <-> forallb_str p s = true.
Proof.
  split.
  - intros (ss & -> & Hss). induction Hss as [|x ss [_ (c & -> & Hc)] _ IH]; simpl; auto.
    now rewrite Hc.
  - induction s as [|c s IH]; simpl.
    + intros _. exists []. auto.
    + rewrite andb_true_iff. intros [Hc Hs].
      destruct (IH Hs) as (ss & -> & Hss).
      exists (String c "" :: ss). split; [reflexivity|].
      constructor; [|assumption]. split; [discriminate|]. simpl. eauto.
Qed.

Lemma lang_plus_class p s :
  lang (Plus (Chr p)) s <-> s <> "" /\ forallb_str p s = true.
Proof.
  unfold Plus. simpl lang at 1. split.
  - intros (s1 & s2 & -> & (c & -> & Hc) & H2).
    apply lang_star_class in H2. simpl. rewrite Hc, H2. split; [discriminate | reflexivity].
  - intros [Hne H]. destruct s as [|c s]; [congruence|]. simpl in H.
    apply andb_true_iff in H as [Hc Hs].
    exists (String c ""), s. split; [reflexivity|]. split; [eauto|].
    now apply lang_star_class.
Qed.

Lemma lang_atleast2_class p s :
  lang (AtLeast2 (Chr p)) s <-> 2 <= String.length s /\ forallb_str p s = true.
Proof.
  unfold AtLeast2. split.
  - intros (s1 & s2 & -> & (c & -> & Hc) & s3 & s4 & -> & (c' & -> & Hc') & H).
    apply lang_star_class in H. simpl. rewrite Hc, Hc', H. split; [lia | reflexivity].
  - intros [Hlen H]. destruct s as [|c [|c' s]]; simpl in Hlen; try lia.
    simpl in H. apply andb_true_iff in H as [Hc H].
    apply andb_true_iff in H as [Hc' H].
    exists (String c ""), (String c' s). split; [reflexivity|]. split; [simpl; eauto|].
    exists (String c' ""), s. split; [reflexivity|]. split; [simpl; eauto|].
    now apply lang_star_class.
Qed.

Lemma lang_lit c s : lang (Lit c) s <-> s = String c "".
Proof.
  unfold Lit. simpl. split.
  - intros (c' & -> & H). apply Ascii.eqb_eq in H. now subst.
  - intros ->. exists c. split; [reflexivity | apply Ascii.eqb_refl].
Qed.

End RegexFacts.

(** ** The email pattern *)

Section EmailFacts.
Import Py Re Validators Observe.

Lemma forallb_str_app p a b :
  forallb_str p (a ++ b) = forallb_str p a && forallb_str p b.
Proof. induction a; simpl; [reflexivity|]. now rewrite IHa, andb_assoc. Qed.

Lemma forallb_str_impl (p q : ascii -> bool) s :
  (forall c, p c = true -> q c = true) ->
  forallb_str p s = true -> forallb_str q s = true.
Proof.
  intros Hpq. induction s; simpl; [auto|].
  rewrite !andb_true_iff. intros [H1 H2]. auto.
Qed.

Lemma lang_email_body s : lang email_body s <-> local_at_domain_tld s.
Proof.
  unfold email_body, local_at_domain_tld. cbn [lang]. split.
  - intros (l & r1 & -> & Hl & a & r2 & -> & Ha & d & r3 & -> & Hd
            & dot & t & -> & Hdot & Ht).
    apply lang_plus_class in Hl as [Hl1 Hl2].
    apply lang_plus_class in Hd as [Hd1 Hd2].
    apply lang_atleast2_class in Ht as [Ht1 Ht2].
    apply lang_lit in Ha. apply lang_lit in Hdot. subst a dot.
    exists l, d, t. auto 10.
  - intros (l & d & t & -> & Hl1 & Hl2 & Hd1 & Hd2 & Ht1 & Ht2).
    exists l, ("@" ++ d ++ "." ++ t). split; [reflexivity|].
    split; [now apply lang_plus_class|].
    exists "@", (d ++ "." ++ t). split; [reflexivity|].
    split; [now apply lang_lit|].
    exists d, ("." ++ t). split; [reflexivity|].
    split; [now apply lang_plus_class|].
    exists ".", t. split; [reflexivity|].
    split; [now apply lang_lit | now apply lang_atleast2_class].
Qed.

(** What [validate_email] accepts: the shape, and the shape followed by
    one newline. *)
Lemma validate_email_accepts s :
  validate_email s = true <->
  local_at_domain_tld s \/ exists s', s = s' ++ nl /\ local_at_domain_tld s'.
Proof.
  unfold validate_email, pattern. rewrite fullmatch_lang.
  unfold Dollar. cbn [lang]. split.
  - intros (s1 & s2 & -> & H1 & [-> | H2]).
    + left. rewrite append_nil_r. now apply lang_email_body.
    + right. apply lang_lit in H2. subst s2. exists s1. split; [reflexivity|].
      now apply lang_email_body.
  - intros [H | (s' & -> & H)].
    + exists s, "". rewrite append_nil_r. split; [reflexivity|].
      split; [now apply lang_email_body | now left].
    + exists s', nl. split; [reflexivity|].
      split; [now apply lang_email_body|]. right. now apply lang_lit.
Qed.

Lemma local_char_not_newline c : local_char c = true -> not_newline c = true.
Proof. destruct c as [[] [] [] [] [] [] [] []]; vm_compute; auto. Qed.

Lemma domain_char_not_newline c : domain_char c = true -> not_newline c = true.
Proof. destruct c as [[] [] [] [] [] [] [] []]; vm_compute; auto. Qed.

Lemma is_alpha_not_newline c : is_alpha c = true -> not_newline c = true.
Proof. destruct c as [[] [] [] [] [] [] [] []]; vm_compute; auto. Qed.

(** No text of the shape holds a newline. *)
Lemma shape_has_no_newline s :
  local_at_domain_tld s -> forallb_str not_newline s = true.
Proof.
  intros (l & d & t & -> & _ & Hl & _ & Hd & _ & Ht).
  rewrite !forallb_str_app.
  rewrite (forallb_str_impl _ _ _ local_char_not_newline Hl).
  rewrite (forallb_str_impl _ _ _ domain_char_not_newline Hd).
  rewrite (forallb_str_impl _ _ _ is_alpha_not_newline Ht).
  reflexivity.
Qed.

End EmailFacts.

(** ** Dates *)

Section DateFacts.
Import Py Dates.
Open Scope Z_scope.

Lemma digit_char_ok k :
  0 <= k <= 9 -> is_digit (digit_char k) = true /\ digit_val (digit_char k) = k.
Proof.
  intros H.
  assert (E : k = 0 \/ k = 1 \/ k = 2 \/ k = 3 \/ k = 4 \/ k = 5 \/ k = 6
              \/ k = 7 \/ k = 8 \/ k = 9) by lia.
  repeat destruct E as [-> | E]; try subst k; split; reflexivity.
Qed.

Lemma re_Y_pad4 y rest :
  0 <= y <= 9999 -> re_Y (pad4 y ++ rest)%string = [(y, rest)].
Proof.
  intros Hy. unfold pad4, pad2.
  assert (Ha : 0 <= y / 1000 <= 9) by (Z.div_mod_to_equations; lia).
  assert (Hb : 0 <= y / 100 mod 10 <= 9) by (Z.div_mod_to_equations; lia).
  assert (Hc : 0 <= y mod 100 / 10 <= 9) by (Z.div_mod_to_equations; lia).
  assert (Hd : 0 <= y mod 100 mod 10 <= 9) by (Z.div_mod_to_equations; lia).
  destruct (digit_char_ok _ Ha) as [Da Va].
  destruct (digit_char_ok _ Hb) as [Db Vb].
  destruct (digit_char_ok _ Hc) as [Dc Vc].
  destruct (digit_char_ok _ Hd) as [Dd Vd].
  unfold re_Y, pbind, pchar, pret. cbn [append flat_map fst snd].
  rewrite Da. cbn [flat_map fst snd app]. rewrite Db. cbn [flat_map fst snd app].
  rewrite Dc. cbn [flat_map fst snd app]. rewrite Dd. cbn [flat_map fst snd app].
  unfold int_of. cbn [fold_left]. rewrite Va, Vb, Vc, Vd.
  f_equal. f_equal.
  clear. Z.div_mod_to_equations. lia.
Qed.

Lemma re_m_pad2 m rest :
  1 <= m <= 12 -> exists tl, re_m (pad2 m ++ rest)%string = (m, rest) :: tl.
Proof.
  intros H.
  assert (E : m = 1 \/ m = 2 \/ m = 3 \/ m = 4 \/ m = 5 \/ m = 6 \/ m = 7
              \/ m = 8 \/ m = 9 \/ m = 10 \/ m = 11 \/ m = 12) by lia.
  repeat destruct E as [-> | E]; try subst m; eexists; reflexivity.
Qed.

Lemma re_d_pad2 d :
  1 <= d <= 31 -> exists tl, re_d (pad2 d) = (d, ""%string) :: tl.
Proof.
  intros H.
  assert (E : d = 1 \/ d = 2 \/ d = 3 \/ d = 4 \/ d = 5 \/ d = 6 \/ d = 7
              \/ d = 8 \/ d = 9 \/ d = 10 \/ d = 11 \/ d = 12 \/ d = 13
              \/ d = 14 \/ d = 15 \/ d = 16 \/ d = 17 \/ d = 18 \/ d = 19
              \/ d = 20 \/ d = 21 \/ d = 22 \/ d = 23 \/ d = 24 \/ d = 25
              \/ d = 26 \/ d = 27 \/ d = 28 \/ d = 29 \/ d = 30 \/ d = 31) by lia.
  repeat destruct E as [-> | E]; try subst d; eexists; reflexivity.
Qed.

Lemma days_in_month_le_31 y m : days_in_month y m <= 31.
Proof.
  unfold days_in_month.
  destruct (m =? 2); [destruct (is_leap y); lia|].
  destruct ((m =? 4) || (m =? 6) || (m =? 9) || (m =? 11))%bool; lia.
Qed.

Lemma valid_date_bounds d :
  valid_date d = true ->
  1 <= year d <= 9999 /\ 1 <= month d <= 12 /\ 1 <= day d <= 31.
Proof.
  unfold valid_date. rewrite !andb_true_iff, !Z.leb_le.
  pose proof (days_in_month_le_31 (year d) (month d)). lia.
Qed.

(** An ISO-formatted calendar date parses back to itself. *)
Lemma strptime_isoformat d : valid_date d = true -> strptime (isoformat d) = Some d.
Proof.
  intros Hv. destruct (valid_date_bounds d Hv) as (Hy & Hm & Hd).
  unfold strptime.
  assert (E : exists tl, format_regex (isoformat d) = (d, ""%string) :: tl).
  { unfold format_regex, isoformat.
    unfold pbind at 1. rewrite re_Y_pad4 by lia. cbn [flat_map fst snd].
    rewrite app_nil_r.
    unfold pbind at 1. cbn [pchar append Ascii.eqb Bool.eqb flat_map fst snd].
    rewrite app_nil_r.
    unfold pbind at 1.
    destruct (re_m_pad2 (month d) (String "-" (pad2 (day d))) Hm) as [tl1 ->].
    cbn [flat_map fst snd].
    unfold pbind at 1. cbn [pchar append Ascii.eqb Bool.eqb flat_map fst snd].
    rewrite app_nil_r.
    unfold pbind at 1.
    destruct (re_d_pad2 (day d) Hd) as [tl2 ->].
    cbn [flat_map fst snd pret app].
    destruct d. eexists. reflexivity. }
  destruct E as [tl ->]. cbn [String.eqb negb]. now rewrite Hv.
Qed.


Lemma tuple_lt_spec a b c d :
  tuple_lt (a, b) (c, d) = true <-> a < c \/ (a = c /\ b < d).
Proof.
  unfold tuple_lt. cbn [fst snd].
  rewrite orb_true_iff, andb_true_iff, !Z.ltb_lt, Z.eqb_eq. tauto.
Qed.

End DateFacts.

(** ** The dispatcher *)

Section DispatcherFacts.
Import Py Effects EffNotations Server Observe.
Variable w : World.

Ltac eff := unfold bind, ret, logger, emit, result, trace in *; cbn [fst snd] in *.

Lemma trace_bind {A B} (m : Eff A) (f : A -> Eff B) :
  trace (bind m f) = (trace m ++ trace (f (result m)))%list.
Proof. reflexivity. Qed.

Lemma result_bind {A B} (m : Eff A) (f : A -> Eff B) :
  result (bind m f) = result (f (result m)).
Proof. reflexivity. Qed.

Lemma trace_for_each {A} (body : A -> Eff unit) l :
  trace (for_each body l) = flat_map (fun x => trace (body x)) l.
Proof.
  induction l as [|x l IH]; [reflexivity|].
  cbn [for_each flat_map]. rewrite trace_bind. now rewrite IH.
Qed.

Lemma trace_post c : trace (post w c) = [Post c].
Proof.
  unfold post. rewrite trace_bind. cbn [emit trace snd result fst app].
  destruct (requests_post w c); [reflexivity|].
  destruct (raise_for_status _ _ _); reflexivity.
Qed.

Lemma raise_for_status_None url code reason :
  raise_for_status url code reason = None <->
  ((400 <=? code)%N && (code <? 600)%N = false).
Proof.
  unfold raise_for_status.
  destruct (400 <=? code)%N eqn:E1, (code <? 500)%N eqn:E2,
           (500 <=? code)%N eqn:E3, (code <? 600)%N eqn:E4;
    cbn [andb]; split; try discriminate; try reflexivity;
    rewrite ?N.leb_le, ?N.ltb_lt, ?N.leb_gt, ?N.ltb_ge in *; lia.
Qed.

Lemma post_ok c : call_failed w c = false -> result (post w c) = inr tt.
Proof.
  unfold call_failed, post. rewrite result_bind.
  destruct (requests_post w c) as [e|code reason]; [discriminate|].
  intros H. apply (raise_for_status_None (call_url c) code reason) in H.
  now rewrite H.
Qed.

Lemma post_failed c : call_failed w c = true -> exists e, result (post w c) = inl e.
Proof.
  unfold call_failed, post. rewrite result_bind.
  destruct (requests_post w c) as [e|code reason];
    [intros _; eexists; reflexivity|].
  intros H.
  destruct (raise_for_status (call_url c) code reason) eqn:E;
    [eexists; reflexivity|].
  apply raise_for_status_None in E. congruence.
Qed.

Lemma post_result_iff c : call_failed w c = false <-> result (post w c) = inr tt.
Proof.
  split; [apply post_ok|]. intros H.
  destruct (call_failed w c) eqn:E; [|reflexivity].
  destruct (post_failed c E) as [e He]. congruence.
Qed.

(** A failed text call: one outbound call, one error record, [False]. *)
Lemma send_to_telegram_text_failed msg photos :
  call_failed w (text_call w msg) = true ->
  exists m, send_to_telegram w msg photos
            = (false, [Post (text_call w msg); Log ERROR m]).
Proof.
  intros H. destruct (post_failed _ H) as [e He].
  unfold send_to_telegram.
  pose proof (trace_post (text_call w msg)) as Ht.
  destruct (post w (text_call w msg)) as [r t]. eff. subst r t.
  destruct e; eexists; reflexivity.
Qed.

(** A text call that went through: the loop runs over every entry of the
    mapping, and the dispatcher returns [True]. *)
Lemma send_to_telegram_text_ok msg photos :
  call_failed w (text_call w msg) = false ->
  send_to_telegram w msg photos
  = (true,
     Post (text_call w msg)
     :: flat_map (fun item => trace (send_photo w item)) photos
     ++ [Log INFO "Mensagem enviada para Telegram com sucesso"])%list.
Proof.
  intros H. apply post_ok in H.
  unfold send_to_telegram.
  pose proof (trace_post (text_call w msg)) as Ht.
  destruct (post w (text_call w msg)) as [r t]. eff. subst r t.
  pose proof (trace_for_each (send_photo w) photos) as Hl. eff. rewrite <- Hl.
  destruct photos as [|item photos]; reflexivity.
Qed.

Lemma send_to_telegram_result msg photos :
  result (send_to_telegram w msg photos) = negb (call_failed w (text_call w msg)).
Proof.
  destruct (call_failed w (text_call w msg)) eqn:E.
  - destruct (send_to_telegram_text_failed msg photos E) as [m ->]. reflexivity.
  - now rewrite send_to_telegram_text_ok.
Qed.

Lemma uploads_app t1 t2 : uploads (t1 ++ t2) = (uploads t1 ++ uploads t2)%list.
Proof.
  induction t1 as [|e t1 IH]; [reflexivity|].
  destruct e as [l m|[u j t|u f d m c t]]; cbn [app uploads]; now rewrite ?IH.
Qed.

Lemma uploads_flat_map {A} (f : A -> list event) l :
  uploads (flat_map f l) = flat_map (fun x => uploads (f x)) l.
Proof.
  induction l as [|x l IH]; [reflexivity|].
  cbn [flat_map]. now rewrite uploads_app, IH.
Qed.

Lemma trace_process_image_data photo :
  forall e, In e (trace (process_image_data w photo)) -> is_outbound e = false.
Proof.
  unfold process_image_data.
  destruct (if contains "," photo then _ else _) as [m|d];
    [|destruct (negb (validate_image_size d 10))]; eff;
    intros e He; simpl in He; intuition (subst; reflexivity).
Qed.

Lemma uploads_no_outbound tr :
  (forall e, In e tr -> is_outbound e = false) -> uploads tr = [].
Proof.
  induction tr as [|e tr IH]; [reflexivity|]. intros H.
  pose proof (H e (or_introl eq_refl)) as He.
  destruct e as [l m|c]; [|discriminate]. cbn [uploads].
  apply IH. intros e' He'. apply H. now right.
Qed.

(** The uploads of one turn of the loop. *)
Lemma uploads_send_photo item :
  uploads (trace (send_photo w item)) = upload_of w item.
Proof.
  unfold send_photo, upload_of.
  destruct (truthy (snd item)); [|reflexivity].
  rewrite trace_bind, uploads_app.
  rewrite (uploads_no_outbound _ (trace_process_image_data (snd item))).
  destruct (result (process_image_data w (snd item))) as [e|d]; [reflexivity|].
  rewrite trace_bind, uploads_app, trace_post.
  cbn [app]. unfold photo_call at 1. cbn [uploads].
  destruct (result (post w (photo_call w (fst item) d))) as [[m|m]|u]; reflexivity.
Qed.

(** A turn of the loop leaves no record exactly for an empty payload. *)
Lemma send_photo_silent item :
  trace (send_photo w item) = [] <-> truthy (snd item) = false.
Proof.
  unfold send_photo. destruct (truthy (snd item)); split; try discriminate; auto.
  rewrite trace_bind.
  unfold process_image_data.
  destruct (if contains "," (snd item) then _ else _) as [m|d];
    [|destruct (negb (validate_image_size d 10))]; eff; discriminate.
Qed.

(** What one turn of the loop records for a payload that is not empty. *)
Lemma send_photo_records p photo :
  truthy photo = true ->
  match result (process_image_data w photo) with
  | inl e =>
      In (Log ERROR ("Erro ao processar foto " ++ p ++ ": " ++ str_exn e))
         (trace (send_photo w (p, photo)))
  | inr image_data =>
      In (Post (photo_call w p image_data)) (trace (send_photo w (p, photo)))
      /\ (call_failed w (photo_call w p image_data) = false ->
          In (Log INFO ("Foto " ++ p ++ " enviada com sucesso"))
             (trace (send_photo w (p, photo))))
      /\ (call_failed w (photo_call w p image_data) = true ->
          exists m,
            In (Log ERROR ("Erro ao enviar foto " ++ p ++ " para Telegram: " ++ m))
               (trace (send_photo w (p, photo)))
            \/ In (Log ERROR ("Erro ao processar foto " ++ p ++ ": " ++ m))
                  (trace (send_photo w (p, photo))))
  end.
Proof.
  intros Ht. unfold send_photo. cbn [fst snd]. rewrite Ht.
  rewrite trace_bind.
  destruct (result (process_image_data w photo)) as [e|d].
  - apply in_or_app. right. left. reflexivity.
  - rewrite trace_bind, trace_post.
    split; [apply in_or_app; right; left; reflexivity|].
    split.
    + intros Hok. apply post_ok in Hok. rewrite Hok.
      apply in_or_app. right. right. left. reflexivity.
    + intros Hf. destruct (post_failed _ Hf) as [e ->].
      destruct e as [m|m]; exists m; [left | right];
        apply in_or_app; right; right; left; reflexivity.
Qed.

End DispatcherFacts.

(** ** The handler *)

Section HandlerFacts.
Import Py Effects EffNotations Server Observe Validators.
Variable w : World.

(** Every path through the checks of [handle_submission], with its
    conditions, its outcome and its trace. *)
Lemma validate_submission_cases req :
  let V := validate_submission w req in
  let fd := checked_form req in
  let job := is_job_application (form_of req) in
  (is_json req = false
   /\ V = (inl (resp400 "Content-Type must be application/json"), []))
  \/ (is_json req = true /\ truthy_dict (get_json req) = false
      /\ V = (inl (resp400 "Nenhum dado recebido"), []))
  \/ (is_json req = true /\ truthy_dict (get_json req) = true
      /\ ((exists field msg,
              first_missing (required_of req) fd = Some (field, msg)
              /\ V = (inl (resp400 msg),
                      [received req;
                       Log WARNING ("Campo obrigatório faltando: " ++ field)]))
          \/ (first_missing (required_of req) fd = None
              /\ ((validate_email (get_or fd "email" "") = false
                   /\ V = (inl (resp400 "Email inválido"), [received req]))
                  \/ (validate_email (get_or fd "email" "") = true
                      /\ validate_phone (get_or fd "phone" "") = false
                      /\ V = (inl (resp400 "Número de telefone inválido"),
                              [received req]))
                  \/ (validate_email (get_or fd "email" "") = true
                      /\ validate_phone (get_or fd "phone" "") = true
                      /\ job = false
                      /\ Dates.validate_birthdate (date_today w)
                           (get_or fd "birthdate" "") = false
                      /\ V = (inl (resp400 "Você deve ter pelo menos 18 anos"),
                              [received req]))
                  \/ (validate_email (get_or fd "email" "") = true
                      /\ validate_phone (get_or fd "phone" "") = true
                      /\ (job = false ->
                          Dates.validate_birthdate (date_today w)
                            (get_or fd "birthdate" "") = true)
                      /\ ((exists photo_type,
                              first_missing_photo required_photos (photos_of req)
                              = Some photo_type
                              /\ V = (inl (resp400 ("Foto " ++ photo_type
                                                    ++ " é obrigatória")),
                                      [received req]))
                          \/ (first_missing_photo required_photos (photos_of req)
                              = None
                              /\ V = (inr (mkValidated job fd (photos_of req)),
                                      [received req])))))))).
Proof.
  cbv zeta. unfold validate_submission, checked_form, required_of, received, form_of,
    photos_of.
  destruct (is_json req); cbn [negb]; [right | left; split; reflexivity].
  destruct (truthy_dict (get_json req)); cbn [negb];
    [right | left; repeat split; reflexivity].
  split; [reflexivity|]. split; [reflexivity|].
  set (fd0 := get_or (get_json req) "formData" []).
  set (job := is_job_application fd0).
  set (fd := if job then fill_optional optional_fields fd0 else fd0).
  set (required := if job then job_required_fields else card_required_fields).
  destruct (first_missing required fd) as [[field msg]|];
    [left; exists field, msg; split; reflexivity | right].
  split; [reflexivity|].
  destruct (validate_email (get_or fd "email" "")); cbn [negb];
    [right | left; split; reflexivity].
  destruct (validate_phone (get_or fd "phone" "")); cbn [negb];
    [right | left; repeat split; reflexivity].
  destruct job eqn:Ejob; cbn [negb andb].
  - right. do 2 (split; [reflexivity|]). split; [discriminate|].
    destruct (first_missing_photo required_photos _) as [photo_type|];
      [left; exists photo_type; split; reflexivity | right; split; reflexivity].
  - destruct (Dates.validate_birthdate _ _); cbn [negb];
      [right | left; repeat split; reflexivity].
    do 2 (split; [reflexivity|]). split; [reflexivity|].
    destruct (first_missing_photo required_photos _) as [photo_type|];
      [left; exists photo_type; split; reflexivity | right; split; reflexivity].
Qed.

(** The checks call nothing outside. *)
Lemma validate_submission_quiet req :
  forall e, In e (trace (validate_submission w req)) -> is_outbound e = false.
Proof.
  pose proof (validate_submission_cases req) as H. cbv zeta in H.
  intros e.
  destruct H as [(_ & ->)|[(_ & _ & ->)|(_ & _ & [(f & m & _ & ->)|(_ & H)])]];
    cbn [trace snd In]; try tauto; try (intuition (subst; reflexivity)).
  destruct H as [(_ & ->)|[(_ & _ & ->)|[(_ & _ & _ & _ & ->)|(_ & _ & _ & H)]]];
    cbn [trace snd In]; try (intuition (subst; reflexivity)).
  destruct H as [(p & _ & ->)|(_ & ->)];
    cbn [trace snd In]; intuition (subst; reflexivity).
Qed.

(** What holds of a submission that reaches the formatter. *)
Lemma validate_submission_passed req v t :
  validate_submission w req = (inr v, t) ->
  is_json req = true /\ truthy_dict (get_json req) = true
  /\ v = mkValidated (is_job_application (form_of req)) (checked_form req)
           (photos_of req)
  /\ t = [received req]
  /\ first_missing (required_of req) (checked_form req) = None
  /\ validate_email (get_or (checked_form req) "email" "") = true
  /\ first_missing_photo required_photos (photos_of req) = None.
Proof.
  pose proof (validate_submission_cases req) as H. cbv zeta in H.
  intros E. rewrite E in H.
  destruct H as [(_ & H)|[(_ & _ & H)|(J1 & J2 & [(f & m & _ & H)|(F & H)])]];
    try discriminate.
  destruct H as [(_ & H)|[(_ & _ & H)|[(_ & _ & _ & _ & H)|(Em & _ & _ & H)]]];
    try discriminate.
  destruct H as [(p & _ & H)|(P & H)]; try discriminate.
  injection H as -> ->. auto 10.
Qed.

Lemma handle_submission_rejected req r t :
  validate_submission w req = (inl r, t) -> handle_submission w req = (r, t).
Proof.
  intros E. unfold handle_submission, bind. rewrite E. cbn [fst snd ret].
  now rewrite app_nil_r.
Qed.

Lemma handle_submission_validated req v t :
  validate_submission w req = (inr v, t) ->
  handle_submission w req
  = (result (dispatch w v), (t ++ trace (dispatch w v))%list).
Proof.
  intros E. unfold handle_submission, bind. rewrite E. reflexivity.
Qed.

Lemma dispatch_text_failed v :
  call_failed w (text_call w (message_of v)) = true ->
  exists m,
    dispatch w v
    = (resp500 "Erro ao enviar para o Telegram",
       [Post (text_call w (message_of v)); Log ERROR m;
        Log ERROR "Falha ao enviar para Telegram"]).
Proof.
  intros H.
  destruct (send_to_telegram_text_failed w (message_of v) (v_photos v) H) as [m E].
  exists m. unfold dispatch, bind. fold (message_of v). rewrite E. reflexivity.
Qed.

Lemma dispatch_text_ok v :
  call_failed w (text_call w (message_of v)) = false ->
  dispatch w v
  = (mkResponse 200 true "Dados enviados com sucesso" (Some (application_id w v)),
     trace (send_to_telegram w (message_of v) (v_photos v))
     ++ [Log INFO ("Submissão bem-sucedida - ID: " ++ application_id w v)])%list.
Proof.
  intros H.
  pose proof (send_to_telegram_text_ok w (message_of v) (v_photos v) H) as E.
  unfold dispatch, bind. fold (message_of v). rewrite E. reflexivity.
Qed.

End HandlerFacts.

(** ** Defaults and required fields *)

Section FormFacts.
Import Py Effects Server Observe.

Lemma get_fill_optional defaults : forall fd k,
  NoDup (map fst defaults) ->
  get (fill_optional defaults fd) k
  = match get defaults k with
    | Some dv => if truthy_opt (get fd k) then get fd k else Some dv
    | None => get fd k
    end.
Proof.
  unfold fill_optional, items.
  induction defaults as [|[f dv] defaults IH]; intros fd k Hnd; [reflexivity|].
  inversion Hnd as [|? ? Hnotin Hnd']; subst.
  cbn [fold_left fst snd get]. rewrite IH by assumption.
  destruct (String.eqb f k) eqn:E.
  - apply String.eqb_eq in E. subst k.
    destruct (get defaults f) eqn:G.
    { exfalso. apply Hnotin. apply get_In in G. now apply (in_map fst) in G. }
    destruct (truthy_opt (get fd f)); cbn [negb]; [reflexivity|].
    apply get_set_same.
  - assert (Hne : f <> k) by (intros ->; now rewrite String.eqb_refl in E).
    destruct (truthy_opt (get fd f)); cbn [negb]; [reflexivity|].
    now rewrite get_set_other by assumption.
Qed.

Lemma optional_fields_NoDup : NoDup (map fst optional_fields).
Proof.
  cbn. repeat constructor; cbn; intuition discriminate.
Qed.

Lemma first_missing_Some required : forall fd field msg,
  first_missing required fd = Some (field, msg) ->
  exists before after,
    required = (before ++ (field, msg) :: after)%list
    /\ truthy_opt (get fd field) = false
    /\ forall f m, In (f, m) before -> truthy_opt (get fd f) = true.
Proof.
  induction required as [|[f m] required IH]; intros fd field msg; cbn [first_missing];
    [discriminate|].
  destruct (truthy_opt (get fd f)) eqn:E; cbn [negb].
  - intros H. destruct (IH _ _ _ H) as (before & after & -> & Hm & Hb).
    exists ((f, m) :: before), after. repeat split; auto.
    intros f' m' [[= <- <-]|Hin]; eauto.
  - intros [= <- <-]. exists [], required. repeat split; auto.
Qed.

Lemma first_missing_In required fd field msg :
  first_missing required fd = Some (field, msg) -> In (field, msg) required.
Proof.
  intros H. destruct (first_missing_Some _ _ _ _ H) as (b & a & -> & _).
  apply in_or_app. right. now left.
Qed.

Lemma first_missing_ext required fd fd' :
  (forall f m, In (f, m) required -> truthy_opt (get fd f) = truthy_opt (get fd' f)) ->
  first_missing required fd = first_missing required fd'.
Proof.
  induction required as [|[f m] required IH]; intros H; [reflexivity|].
  cbn [first_missing]. rewrite <- (H f m) by now left.
  rewrite IH; [reflexivity|]. intros f' m' Hin. apply (H f' m'). now right.
Qed.

Lemma first_missing_photo_In slots photos p :
  first_missing_photo slots photos = Some p ->
  In p slots /\ truthy_opt (get photos p) = false.
Proof.
  induction slots as [|s slots IH]; cbn [first_missing_photo]; [discriminate|].
  destruct (truthy_opt (get photos s)) eqn:E; cbn [negb].
  - intros H. destruct (IH H). split; [now right | assumption].
  - intros [= <-]. split; [now left | assumption].
Qed.

Lemma first_missing_photo_None slots photos :
  first_missing_photo slots photos = None ->
  forall p, In p slots -> truthy_opt (get photos p) = true.
Proof.
  induction slots as [|s slots IH]; cbn [first_missing_photo]; [intros _ p []|].
  destruct (truthy_opt (get photos s)) eqn:E; cbn [negb]; [|discriminate].
  intros H p [<-|Hin]; auto.
Qed.

(** After the defaults, every defaulted field is present and not empty. *)
Lemma defaulted_field_present fd field default :
  In (field, default) optional_fields ->
  truthy_opt (get (fill_optional optional_fields fd) field) = true
  /\ get (fill_optional optional_fields fd) field
     = Some (if truthy_opt (get fd field) then get_or fd field "" else default).
Proof.
  intros Hin. rewrite get_fill_optional by apply optional_fields_NoDup.
  rewrite (In_get_NoDup _ _ _ optional_fields_NoDup Hin).
  unfold get_or.
  destruct (get fd field) as [s|] eqn:G; cbn [truthy_opt].
  - destruct (truthy s) eqn:T; cbn [truthy_opt]; [rewrite T; auto|].
    split; [|reflexivity].
    cbn in Hin. intuition (match goal with H : (_, _) = (_, _) |- _ =>
                             injection H as <- <- end; reflexivity).
  - split; [|reflexivity].
    cbn in Hin. intuition (match goal with H : (_, _) = (_, _) |- _ =>
                             injection H as <- <- end; reflexivity).
Qed.

(** The required check of a job application, run after the defaults, is
    the check of the fields without a default on the form as it came. *)
Lemma first_missing_after_defaults fd :
  first_missing job_required_fields (fill_optional optional_fields fd)
  = first_missing (undefaulted_required true) fd.
Proof.
  pose proof (get_fill_optional optional_fields fd) as G.
  pose proof optional_fields_NoDup as Hnd.
  destruct (defaulted_field_present fd "employmentStatus" "candidate") as [He _].
  { cbn. tauto. }
  change (undefaulted_required true)
    with [ ("firstName", "Nome é obrigatório"); ("email", "Email é obrigatório");
           ("phone", "Telefone é obrigatório"); ("country", "País é obrigatório") ].
  unfold job_required_fields. cbn [first_missing].
  rewrite He. cbn [negb].
  rewrite !G by assumption.
  change (get optional_fields "firstName") with (@None string).
  change (get optional_fields "email") with (@None string).
  change (get optional_fields "phone") with (@None string).
  change (get optional_fields "country") with (@None string).
  cbv iota. reflexivity.
Qed.

Lemma required_check_on_raw_form req :
  first_missing (required_of req) (checked_form req)
  = first_missing (undefaulted_required (is_job_application (form_of req))) (form_of req).
Proof.
  unfold required_of, checked_form.
  destruct (is_job_application (form_of req)); [|reflexivity].
  apply first_missing_after_defaults.
Qed.

End FormFacts.

(** ** Traces of the dispatch *)

Section TraceFacts.
Import Py Effects EffNotations Server Observe.
Variable w : World.

(** The four shapes of one turn of the loop. *)
Lemma send_photo_cases item :
  trace (send_photo w item) = []
  \/ (exists m1 m2, trace (send_photo w item) = [Log ERROR m1; Log ERROR m2])
  \/ (exists d m,
        trace (send_photo w item) = [Post (photo_call w (fst item) d); Log INFO m])
  \/ (exists d m,
        trace (send_photo w item) = [Post (photo_call w (fst item) d); Log ERROR m]).
Proof.
  unfold send_photo. destruct (truthy (snd item)); [|now left]. right.
  rewrite trace_bind. unfold process_image_data.
  destruct (if contains "," (snd item) then _ else _) as [m|d];
    [|destruct (negb (validate_image_size d 10))];
    try (left; do 2 eexists; reflexivity).
  right. cbn [ret result trace fst snd app].
  pose proof (trace_post w (photo_call w (fst item) d)) as Ht.
  unfold bind. unfold trace in Ht. rewrite Ht.
  destruct (fst (post w (photo_call w (fst item) d))) as [[m|m]|u];
    [right | right | left]; do 2 eexists; reflexivity.
Qed.

Lemma texts_app t1 t2 : texts (t1 ++ t2) = (texts t1 ++ texts t2)%list.
Proof.
  induction t1 as [|e t1 IH]; [reflexivity|].
  destruct e as [l m|[u j t|u f d m c t]]; cbn [app texts]; now rewrite ?IH.
Qed.

Lemma texts_send_photo item : texts (trace (send_photo w item)) = [].
Proof.
  destruct (send_photo_cases item)
    as [-> | [(m1 & m2 & ->) | [(d & m & ->) | (d & m & ->)]]]; reflexivity.
Qed.

Lemma texts_loop photos :
  texts (flat_map (fun item => trace (send_photo w item)) photos) = [].
Proof.
  induction photos as [|item photos IH]; [reflexivity|].
  cbn [flat_map]. now rewrite texts_app, texts_send_photo, IH.
Qed.

Lemma warning_send_photo item e :
  In e (trace (send_photo w item)) -> is_warning e = false.
Proof.
  destruct (send_photo_cases item)
    as [-> | [(m1 & m2 & ->) | [(d & m & ->) | (d & m & ->)]]];
    cbn [In]; intuition (subst; reflexivity).
Qed.

Lemma warning_send_to_telegram msg photos e :
  In e (trace (send_to_telegram w msg photos)) -> is_warning e = false.
Proof.
  destruct (call_failed w (text_call w msg)) eqn:E.
  - destruct (send_to_telegram_text_failed w msg photos E) as [m ->].
    cbn [trace snd In]. intuition (subst; reflexivity).
  - rewrite (send_to_telegram_text_ok w msg photos E). cbn [trace snd].
    intros [<-|H]; [reflexivity|].
    apply in_app_or in H as [H|[<-|[]]]; [|reflexivity].
    apply in_flat_map in H as (item & _ & H). now apply warning_send_photo in H.
Qed.

Lemma warning_dispatch v e : In e (trace (dispatch w v)) -> is_warning e = false.
Proof.
  destruct (call_failed w (text_call w (message_of v))) eqn:E.
  - destruct (dispatch_text_failed w v E) as [m ->].
    cbn [trace snd In]. intuition (subst; reflexivity).
  - rewrite (dispatch_text_ok w v E). cbn [trace snd].
    intros H. apply in_app_or in H as [H|[<-|[]]]; [|reflexivity].
    now apply warning_send_to_telegram in H.
Qed.

Lemma texts_quiet tr :
  (forall e, In e tr -> is_outbound e = false) -> texts tr = [].
Proof.
  induction tr as [|e tr IH]; [reflexivity|]. intros H.
  pose proof (H e (or_introl eq_refl)) as He.
  destruct e as [l m|c]; [|discriminate]. cbn [texts].
  apply IH. intros e' He'. apply H. now right.
Qed.

Lemma texts_dispatch v : texts (trace (dispatch w v)) = [message_of v].
Proof.
  destruct (call_failed w (text_call w (message_of v))) eqn:E.
  - destruct (dispatch_text_failed w v E) as [m ->]. reflexivity.
  - rewrite (dispatch_text_ok w v E). cbn [trace snd].
    rewrite (send_to_telegram_text_ok w _ _ E). cbn [trace snd].
    rewrite texts_app. unfold text_call at 1. cbn [texts].
    rewrite texts_app, texts_loop. reflexivity.
Qed.

(** Every answer of the handler. *)
Lemma handle_submission_answers req :
  let r := result (handle_submission w req) in
  r = resp400 "Content-Type must be application/json"
  \/ r = resp400 "Nenhum dado recebido"
  \/ (exists field msg,
        first_missing (required_of req) (checked_form req) = Some (field, msg)
        /\ r = resp400 msg)
  \/ r = resp400 "Email inválido"
  \/ r = resp400 "Número de telefone inválido"
  \/ r = resp400 "Você deve ter pelo menos 18 anos"
  \/ (exists photo_type,
        In photo_type required_photos
        /\ r = resp400 ("Foto " ++ photo_type ++ " é obrigatória"))
  \/ (exists v t,
        validate_submission w req = (inr v, t)
        /\ call_failed w (text_call w (message_of v)) = true
        /\ r = resp500 "Erro ao enviar para o Telegram")
  \/ (exists v t,
        validate_submission w req = (inr v, t)
        /\ call_failed w (text_call w (message_of v)) = false
        /\ r = mkResponse 200 true "Dados enviados com sucesso"
                 (Some (application_id w v))).
Proof.
  cbv zeta.
  pose proof (validate_submission_cases w req) as H. cbv zeta in H.
  destruct H as [(_ & H)|[(_ & _ & H)|(_ & _ & [(f & m & F & H)|(_ & H)])]].
  1-3: rewrite (handle_submission_rejected w req _ _ H); cbn [result fst]; eauto 10.
  destruct H as [(_ & H)|[(_ & _ & H)|[(_ & _ & _ & _ & H)|(_ & _ & _ & H)]]].
  1-3: rewrite (handle_submission_rejected w req _ _ H); cbn [result fst]; auto 10.
  destruct H as [(p & P & H)|(_ & H)].
  - rewrite (handle_submission_rejected w req _ _ H); cbn [result fst].
    apply first_missing_photo_In in P as [P _]. do 6 right. left. eauto.
  - rewrite (handle_submission_validated w req _ _ H); cbn [result fst].
    set (v := mkValidated _ _ _) in *.
    destruct (call_failed w (text_call w (message_of v))) eqn:E.
    + destruct (dispatch_text_failed w v E) as [m ->]. cbn [fst].
      do 7 right. left. eauto.
    + rewrite (dispatch_text_ok w v E). cbn [fst].
      do 8 right. eauto.
Qed.

(** The handler logs a warning only when the required check fails, and the
    warning names the field the check failed on. *)
Lemma warning_is_required_failure req text :
  In (Log WARNING text) (trace (handle_submission w req)) ->
  exists field msg,
    text = "Campo obrigatório faltando: " ++ field
    /\ first_missing (required_of req) (checked_form req) = Some (field, msg).
Proof.
  intros Hin.
  pose proof (validate_submission_cases w req) as H. cbv zeta in H.
  destruct H as [(_ & H)|[(_ & _ & H)|(_ & _ & [(f & m & F & H)|(_ & H)])]].
  1-2: rewrite (handle_submission_rejected w req _ _ H) in Hin;
       cbn [trace snd In] in Hin; contradiction.
  { rewrite (handle_submission_rejected w req _ _ H) in Hin.
    cbn [trace snd In] in Hin. unfold received in Hin.
    destruct Hin as [Hin|[Hin|[]]]; [discriminate|].
    injection Hin as <-. exists f, m. auto. }
  destruct H as [(_ & H)|[(_ & _ & H)|[(_ & _ & _ & _ & H)|(_ & _ & _ & H)]]].
  1-3: rewrite (handle_submission_rejected w req _ _ H) in Hin;
       cbn [trace snd In] in Hin; unfold received in Hin;
       destruct Hin as [Hin|[]]; discriminate.
  destruct H as [(p & _ & H)|(_ & H)].
  - rewrite (handle_submission_rejected w req _ _ H) in Hin.
    cbn [trace snd In] in Hin. unfold received in Hin.
    destruct Hin as [Hin|[]]; discriminate.
  - rewrite (handle_submission_validated w req _ _ H) in Hin.
    cbn [trace snd] in Hin. apply in_app_or in Hin as [Hin|Hin].
    + cbn [In] in Hin. unfold received in Hin. destruct Hin as [Hin|[]]; discriminate.
    + apply warning_dispatch in Hin. discriminate.
Qed.

End TraceFacts.

(** ** The identifier and the photo count *)

Section ShapeFacts.
Import Py Effects Server Observe.

Lemma hex_pair_upper b :
  is_upper_hex (upper_char (hex_digit (Byte.to_N b / 16))) = true
  /\ is_upper_hex (upper_char (hex_digit (Byte.to_N b mod 16))) = true.
Proof. destruct b; split; reflexivity. Qed.

Lemma upper_hexlify_shape bs :
  String.length (upper (hexlify bs)) = 2 * List.length bs
  /\ forallb_str is_upper_hex (upper (hexlify bs)) = true.
Proof.
  induction bs as [|b bs [IH1 IH2]]; [split; reflexivity|].
  destruct (hex_pair_upper b) as [H1 H2].
  cbn [hexlify upper String.length forallb_str List.length].
  rewrite IH1, IH2, H1, H2. split; [lia | reflexivity].
Qed.

Lemma token_hex_shape w :
  String.length (upper (token_hex w 4)) = 8
  /\ forallb_str is_upper_hex (upper (token_hex w 4)) = true.
Proof.
  unfold token_hex, token_bytes.
  destruct (upper_hexlify_shape (map (urandom w) (seq 0 4))) as [H1 H2].
  split; [|assumption]. rewrite H1, length_map, length_seq. reflexivity.
Qed.

Lemma count_photos_items photos :
  count_photos photos = List.length (filter (fun kv => truthy (snd kv)) photos).
Proof.
  unfold count_photos, values.
  induction photos as [|[k v] photos IH]; [reflexivity|].
  cbn [map filter snd]. destruct (truthy v); cbn [List.length]; now rewrite ?IH.
Qed.

Lemma present_photo_counted photos p :
  truthy_opt (get photos p) = true ->
  exists s, In (p, s) (filter (fun kv => truthy (snd kv)) photos).
Proof.
  destruct (get photos p) as [s|] eqn:G; [|discriminate].
  cbn [truthy_opt]. intros T. exists s. apply filter_In. split; [|assumption].
  now apply get_In.
Qed.

(** The three required slots are three entries of the mapping. *)
Lemma three_slots_counted photos :
  first_missing_photo required_photos photos = None -> 3 <= count_photos photos.
Proof.
  intros H. pose proof (first_missing_photo_None _ _ H) as P.
  destruct (present_photo_counted photos "front") as [s1 H1]; [apply P; cbn; tauto|].
  destruct (present_photo_counted photos "back") as [s2 H2]; [apply P; cbn; tauto|].
  destruct (present_photo_counted photos "selfie") as [s3 H3]; [apply P; cbn; tauto|].
  rewrite count_photos_items.
  change 3 with (List.length [("front", s1); ("back", s2); ("selfie", s3)]).
  apply NoDup_incl_length.
  - repeat constructor; cbn; intuition discriminate.
  - intros x [<-|[<-|[<-|[]]]]; assumption.
Qed.

Lemma NoDup_keys_filter {V} (f : string * V -> bool) (d : dict V) :
  NoDup (map fst d) -> NoDup (map fst (filter f d)).
Proof.
  induction d as [|kv d IH]; cbn [map filter]; [auto|].
  intros H. inversion H as [|? ? Hnotin Hnd]; subst.
  destruct (f kv); cbn [map]; [|auto].
  constructor; [|auto]. intros Hin. apply Hnotin.
  apply in_map_iff in Hin as (x & <- & Hx). apply filter_In in Hx as [Hx _].
  now apply in_map.
Qed.

(** A mapping that holds the three slots and no other key counts three. *)
Lemma only_slots_counted photos :
  NoDup (map fst photos) ->
  (forall k, In k (map fst photos) -> In k required_photos) ->
  count_photos photos <= 3.
Proof.
  intros Hnd Hk. rewrite count_photos_items.
  rewrite <- (length_map fst).
  change 3 with (List.length required_photos).
  apply NoDup_incl_length; [now apply NoDup_keys_filter|].
  intros k Hin. apply Hk.
  apply in_map_iff in Hin as (x & <- & Hx). apply filter_In in Hx as [Hx _].
  now apply in_map.
Qed.

Lemma concat_snoc sep l x :
  l <> [] -> String.concat sep (l ++ [x]) = String.concat sep l ++ sep ++ x.
Proof.
  induction l as [|a l IH]; [congruence|]. intros _.
  destruct l as [|b l]; [reflexivity|].
  change (a ++ sep ++ String.concat sep ((b :: l) ++ [x])
          = (a ++ sep ++ String.concat sep (b :: l)) ++ sep ++ x).
  rewrite IH by discriminate. now rewrite !append_assoc.
Qed.

Lemma format_message_ends is_job form_data photos :
  exists body,
    format_message is_job form_data photos
    = body ++ "*Fotos anexadas:* " ++ str_nat (count_photos photos) ++ "/3".
Proof.
  unfold format_message.
  exists (String.concat nl (if is_job then job_lines form_data else card_lines form_data)
          ++ nl).
  rewrite concat_snoc by (destruct is_job; discriminate).
  now rewrite append_assoc.
Qed.

End ShapeFacts.

(* ================================================================== *)
(** * The properties of the pipeline *)

Section Pipeline.
Import Py Effects EffNotations Server Observe Validators Examples.

(** C1.  For a submission that reaches dispatch, when the text call to the
    messaging API fails (a network error, or a status for which
    [raise_for_status] raises) the dispatcher returns [False], the text
    call is the only outbound call of the request (no upload is attempted
    for any photo), and the answer is 500 with the dispatch-failure
    message and no [applicationId]. *)
Theorem text_failure_aborts_dispatch (w : World) (req : request)
    (v : validated) (t : list event) :
  validate_submission w req = (inr v, t) ->
  call_failed w (text_call w (message_of v)) = true ->
  result (send_to_telegram w (message_of v) (v_photos v)) = false
  /\ uploads (trace (handle_submission w req)) = []
  /\ (forall c, In (Post c) (trace (handle_submission w req)) ->
      c = text_call w (message_of v))
  /\ result (handle_submission w req)
     = mkResponse 500 false "Erro ao enviar para o Telegram" None.
Proof.
  intros Hv Hf.
  rewrite send_to_telegram_result, Hf.
  rewrite (handle_submission_validated w req v t Hv).
  destruct (dispatch_text_failed w v Hf) as [m ->].
  cbn [result trace fst snd].
  pose proof (validate_submission_quiet w req) as Hq.
  rewrite Hv in Hq. cbn [trace snd] in Hq.
  repeat split.
  - rewrite uploads_app, (uploads_no_outbound t Hq). reflexivity.
  - intros c Hin. apply in_app_or in Hin as [Hin|Hin].
    + apply Hq in Hin. discriminate.
    + cbn [In] in Hin. destruct Hin as [[= <-]|[H|[H|[]]]]; [reflexivity | discriminate..].
Qed.

(** C1, on a run: the messaging API answers the text call with 503. *)
Lemma text_failure_aborts_dispatch_witness :
  call_failed world_text_503
    (text_call world_text_503
       (message_of (mkValidated false card_form three_photos))) = true
  /\ uploads (trace (handle_submission world_text_503 card_request)) = []
  /\ result (handle_submission world_text_503 card_request)
     = mkResponse 500 false "Erro ao enviar para o Telegram" None.
Proof.
  split; [reflexivity|].
  pose proof (text_failure_aborts_dispatch world_text_503 card_request
                (mkValidated false card_form three_photos)
                [received card_request] eq_refl eq_refl) as H.
  split; [exact (proj1 (proj2 H)) | exact (proj2 (proj2 (proj2 H)))].
Defined.

(** C2.  For a submission that reaches dispatch, the dispatcher returns
    [True] exactly when the text call went through.  When it did, the
    answer is 200 with a generated [applicationId], whatever the uploads
    did; and every entry of the photos mapping with a payload had its turn:
    a payload that does not decode is logged as an error, one that decodes
    is uploaded, and a failed upload is logged as an error. *)
Theorem dispatch_succeeds_iff_text_sent (w : World) (req : request)
    (v : validated) (t : list event) :
  validate_submission w req = (inr v, t) ->
  (result (send_to_telegram w (message_of v) (v_photos v)) = true
   <-> call_failed w (text_call w (message_of v)) = false)
  /\ (call_failed w (text_call w (message_of v)) = false ->
      result (handle_submission w req)
      = mkResponse 200 true "Dados enviados com sucesso" (Some (application_id w v))
      /\ forall p photo,
          In (p, photo) (v_photos v) -> truthy photo = true ->
          match result (process_image_data w photo) with
          | inl e =>
              In (Log ERROR ("Erro ao processar foto " ++ p ++ ": " ++ str_exn e))
                 (trace (handle_submission w req))
          | inr image_data =>
              In (Post (photo_call w p image_data)) (trace (handle_submission w req))
              /\ (call_failed w (photo_call w p image_data) = true ->
                  exists m,
                    In (Log ERROR ("Erro ao enviar foto " ++ p ++ " para Telegram: " ++ m))
                       (trace (handle_submission w req))
                    \/ In (Log ERROR ("Erro ao processar foto " ++ p ++ ": " ++ m))
                          (trace (handle_submission w req)))
          end).
Proof.
  intros Hv. split.
  - rewrite send_to_telegram_result.
    destruct (call_failed w (text_call w (message_of v))); cbn [negb];
      split; congruence.
  - intros Hok.
    rewrite (handle_submission_validated w req v t Hv).
    rewrite (dispatch_text_ok w v Hok). cbn [result trace fst snd].
    split; [reflexivity|].
    intros p photo Hin Htruthy.
    assert (Hsub : forall e, In e (snd (send_photo w (p, photo))) ->
                             In e (t ++ snd (send_to_telegram w (message_of v) (v_photos v))
                                     ++ [Log INFO ("Submissão bem-sucedida - ID: "
                                                   ++ application_id w v)])%list).
    { intros e He. apply in_or_app. right. apply in_or_app. left.
      rewrite (send_to_telegram_text_ok w _ _ Hok). cbn [snd]. right.
      apply in_or_app. left. apply in_flat_map. exists (p, photo). auto. }
    pose proof (send_photo_records w p photo Htruthy) as R.
    destruct (result (process_image_data w photo)) as [e|d].
    + now apply Hsub.
    + destruct R as (R1 & _ & R3). split; [now apply Hsub|].
      intros Hf. destruct (R3 Hf) as [m [H|H]]; exists m; [left | right]; now apply Hsub.
Qed.

(** C2, on a run: the uploads of front and selfie go through, the upload
    of back meets a network error; the answer is still 200. *)
Lemma dispatch_succeeds_iff_text_sent_witness :
  result (handle_submission world_back_down card_request)
  = mkResponse 200 true "Dados enviados com sucesso" (Some "NCDEADBEEF")
  /\ map upload_filename (uploads (trace (handle_submission world_back_down card_request)))
     = ["front_id.jpg"; "back_id.jpg"; "selfie_id.jpg"]
  /\ In (Log ERROR "Erro ao enviar foto back para Telegram: Read timed out")
        (trace (handle_submission world_back_down card_request)).
Proof.
  pose proof (dispatch_succeeds_iff_text_sent world_back_down card_request
                (mkValidated false card_form three_photos)
                [received card_request] eq_refl) as [_ H].
  destruct (H eq_refl) as [Hr Hslots].
  split; [exact Hr|]. split; [reflexivity|].
  pose proof (Hslots "back" "REVG" (or_intror (or_introl eq_refl)) eq_refl) as Hb.
  cbv beta iota in Hb.
  change (result (process_image_data world_back_down "REVG"))
    with (@inr exn bytes ["D"%byte; "E"%byte; "F"%byte]) in Hb.
  cbv beta iota in Hb. destruct Hb as [_ Hb].
  destruct (Hb eq_refl) as [m [Hm|Hm]]; vm_compute in Hm; vm_compute; tauto.
Defined.

(** C3, as stated, fails: the dispatcher follows the photos mapping, not
    the list of the three slots.  On a submission whose mapping holds
    selfie, front, back and a fourth key, in that order, the uploads are
    those four, in that order. *)
Lemma upload_slots_counterexample :
  map upload_filename
    (uploads (trace (handle_submission world_up (submission card_form four_photos))))
  = ["selfie_id.jpg"; "front_id.jpg"; "back_id.jpg"; "extra_id.jpg"]
  /\ map upload_filename
       (uploads (trace (handle_submission world_up (submission card_form four_photos))))
     <> ["front_id.jpg"; "back_id.jpg"; "selfie_id.jpg"].
Proof.
  assert (E : map upload_filename
                (uploads (trace (handle_submission world_up
                                   (submission card_form four_photos))))
              = ["selfie_id.jpg"; "front_id.jpg"; "back_id.jpg"; "extra_id.jpg"])
    by (vm_compute; reflexivity).
  split; [exact E|]. rewrite E. discriminate.
Qed.

(** C3, amended.  Once the text call went through, the dispatcher takes
    the entries of the photos mapping one by one, in the order of the
    mapping and whatever their keys: an entry leaves no record exactly when
    its payload is empty; an entry with a payload is decoded, a failure to
    decode is logged, and otherwise its upload is attempted.  The uploads
    of the run are those of the entries with a payload that decodes, in the
    order of the mapping. *)
Theorem dispatch_follows_photos_mapping (w : World) (msg : string)
    (photos : dict string) :
  call_failed w (text_call w msg) = false ->
  trace (send_to_telegram w msg photos)
  = (Post (text_call w msg)
     :: flat_map (fun item => trace (send_photo w item)) (items photos)
     ++ [Log INFO "Mensagem enviada para Telegram com sucesso"])%list
  /\ (forall item, trace (send_photo w item) = [] <-> truthy (snd item) = false)
  /\ (forall p photo,
        In (p, photo) (items photos) -> truthy photo = true ->
        match result (process_image_data w photo) with
        | inl e =>
            In (Log ERROR ("Erro ao processar foto " ++ p ++ ": " ++ str_exn e))
               (trace (send_to_telegram w msg photos))
        | inr image_data =>
            In (Post (photo_call w p image_data)) (trace (send_to_telegram w msg photos))
        end)
  /\ uploads (trace (send_to_telegram w msg photos))
     = flat_map (upload_of w) (items photos).
Proof.
  intros Hok. rewrite (send_to_telegram_text_ok w msg photos Hok).
  cbn [trace snd]. unfold items. split; [reflexivity|].
  split; [apply send_photo_silent|]. split.
  - intros p photo Hin Ht.
    assert (Hsub : forall e, In e (snd (send_photo w (p, photo))) ->
              In e (Post (text_call w msg)
                    :: flat_map (fun item => snd (send_photo w item)) photos
                    ++ [Log INFO "Mensagem enviada para Telegram com sucesso"])%list).
    { intros e He. right. apply in_or_app. left. apply in_flat_map.
      exists (p, photo). auto. }
    pose proof (send_photo_records w p photo Ht) as R.
    destruct (result (process_image_data w photo)) as [e|d].
    + now apply Hsub.
    + destruct R as [R _]. now apply Hsub.
  - unfold text_call at 1. cbn [uploads].
    rewrite uploads_app, uploads_flat_map. cbn [uploads]. rewrite app_nil_r.
    apply flat_map_ext. intros item. apply uploads_send_photo.
Qed.

(** C3 amended, on a run: four entries, four uploads, in the order of the
    mapping. *)
Lemma dispatch_follows_photos_mapping_witness :
  uploads (trace (send_to_telegram world_up "text" four_photos))
  = flat_map (upload_of world_up) four_photos
  /\ map upload_filename (flat_map (upload_of world_up) four_photos)
     = ["selfie_id.jpg"; "front_id.jpg"; "back_id.jpg"; "extra_id.jpg"].
Proof.
  split; [|reflexivity].
  exact (proj2 (proj2 (proj2
           (dispatch_follows_photos_mapping world_up "text" four_photos eq_refl)))).
Defined.

(** C4, as stated, fails: the count is taken over every entry of the
    photos mapping.  With the three slots and a fourth key, all with a
    payload, the text sent ends in 4/3, while three of the three slots are
    filled. *)
Lemma photo_count_counterexample :
  List.length (filter (fun slot => truthy_opt (get four_photos slot)) required_photos) = 3
  /\ exists text,
       texts (trace (handle_submission world_up (submission card_form four_photos)))
       = [text]
       /\ endswith text "*Fotos anexadas:* 4/3" = true
       /\ endswith text "*Fotos anexadas:* 3/3" = false.
Proof.
  split; [reflexivity|].
  eexists. split; [vm_compute; reflexivity|]. split; vm_compute; reflexivity.
Qed.

(** C4, amended.  For a submission that reaches dispatch, one text is
    sent; under either template it ends with the count of attached photos
    out of 3, where the count is the number of entries of the photos
    mapping with a payload that is not empty, under any key.  The count is
    at least 3, and it is 3 when the mapping holds no key but front, back
    and selfie. *)
Theorem message_ends_with_photo_count (w : World) (req : request)
    (v : validated) (t : list event) :
  validate_submission w req = (inr v, t) ->
  texts (trace (handle_submission w req)) = [message_of v]
  /\ (exists body,
        message_of v
        = body ++ "*Fotos anexadas:* " ++ str_nat (count_photos (photos_of req)) ++ "/3")
  /\ count_photos (photos_of req)
     = List.length (filter (fun kv => truthy (snd kv)) (items (photos_of req)))
  /\ 3 <= count_photos (photos_of req)
  /\ (NoDup (map fst (photos_of req)) ->
      (forall k, In k (map fst (photos_of req)) -> In k required_photos) ->
      count_photos (photos_of req) = 3).
Proof.
  intros Hv.
  destruct (validate_submission_passed w req v t Hv)
    as (_ & _ & Ev & Et & _ & _ & Hp).
  rewrite (handle_submission_validated w req v t Hv). cbn [trace snd].
  rewrite texts_app, texts_dispatch.
  pose proof (validate_submission_quiet w req) as Hq.
  rewrite Hv in Hq. cbn [trace snd] in Hq. rewrite (texts_quiet t Hq).
  split; [reflexivity|].
  assert (Ephotos : v_photos v = photos_of req) by now rewrite Ev.
  split.
  { unfold message_of. rewrite Ephotos. apply format_message_ends. }
  split; [apply count_photos_items|].
  pose proof (three_slots_counted _ Hp) as H3. split; [exact H3|].
  intros Hnd Hk. pose proof (only_slots_counted _ Hnd Hk). lia.
Qed.

(** C4 amended, on a run with the three slots only. *)
Lemma message_ends_with_photo_count_witness :
  texts (trace (handle_submission world_up card_request))
  = [message_of (mkValidated false card_form three_photos)]
  /\ count_photos (photos_of card_request) = 3.
Proof.
  pose proof (message_ends_with_photo_count world_up card_request
                (mkValidated false card_form three_photos)
                [received card_request] eq_refl) as (H1 & _ & _ & _ & H5).
  split; [exact H1|]. apply H5.
  - cbn. repeat constructor; cbn; intuition discriminate.
  - intros k Hk. exact Hk.
Defined.




(** C6.  When the discriminator selects a job application, each of the
    seven optional fields holds, after the defaults, its own value if that
    was present and not empty and its fixed default otherwise, one field
    independently of the others, and no other field changes.  The
    required-field check runs on the form with the defaults in: when it
    fails the answer is its 400, and the field it fails on is never a
    defaulted one. *)
Theorem job_defaults_before_required_check (w : World) (req : request) :
  is_job_application (form_of req) = true ->
  (forall field default,
      In (field, default) optional_fields ->
      get (checked_form req) field
      = Some (if truthy_opt (get (form_of req) field)
              then get_or (form_of req) field ""
              else default))
  /\ (forall field,
        get optional_fields field = None ->
        get (checked_form req) field = get (form_of req) field)
  /\ (forall field msg,
        is_json req = true -> truthy_dict (get_json req) = true ->
        first_missing job_required_fields (checked_form req) = Some (field, msg) ->
        result (handle_submission w req) = mkResponse 400 false msg None
        /\ get optional_fields field = None)
  /\ (forall text,
        In (Log WARNING text) (trace (handle_submission w req)) ->
        exists field msg,
          text = "Campo obrigatório faltando: " ++ field
          /\ first_missing job_required_fields (checked_form req) = Some (field, msg)
          /\ get optional_fields field = None).
Proof.
  intros Hjob.
  assert (Hnodefault : forall field msg,
             first_missing job_required_fields (checked_form req) = Some (field, msg) ->
             get optional_fields field = None).
  { intros field msg H. unfold checked_form in H. rewrite Hjob in H.
    rewrite first_missing_after_defaults in H.
    apply first_missing_In in H. cbn in H.
    intuition (match goal with H : (_, _) = (_, _) |- _ =>
                 injection H as <- <- end; reflexivity). }
  split; [|split; [|split]].
  - intros field default Hin. unfold checked_form. rewrite Hjob.
    now apply defaulted_field_present.
  - intros field Hnone. unfold checked_form. rewrite Hjob.
    rewrite get_fill_optional by apply optional_fields_NoDup. now rewrite Hnone.
  - intros field msg Hj Hd Hfm. split; [|eauto].
    pose proof (validate_submission_cases w req) as H. cbv zeta in H.
    unfold required_of in H. rewrite Hjob in H.
    destruct H as [(H & _)|[(_ & H & _)|(_ & _ & [(f & m & F & H)|(F & _)])]];
      try congruence.
    rewrite (handle_submission_rejected w req _ _ H). cbn [result fst].
    rewrite Hfm in F. now injection F as <- <-.
  - intros text Hin.
    destruct (warning_is_required_failure w req text Hin) as (f & m & E & F).
    unfold required_of in F. rewrite Hjob in F.
    exists f, m. eauto.
Qed.

(** C6, on a run: a job application with an empty [lastName] and no
    [employmentStatus] passes the required check with [N/A] and
    [candidate] in their place. *)
Lemma job_defaults_before_required_check_witness :
  get (checked_form job_request) "lastName" = Some "N/A"
  /\ get (checked_form job_request) "employmentStatus" = Some "candidate"
  /\ get (checked_form job_request) "firstName" = Some "Ana"
  /\ first_missing job_required_fields (checked_form job_request) = None.
Proof.
  pose proof (job_defaults_before_required_check world_up job_request eq_refl)
    as (D & U & _ & _).
  split; [|split; [|split]].
  - exact (D "lastName" "N/A" (or_introl eq_refl)).
  - apply (D "employmentStatus" "candidate"). cbn. tauto.
  - exact (U "firstName" eq_refl).
  - reflexivity.
Defined.

(** C7, as stated, fails: a job application that leaves out
    [employmentStatus], a required field of its schema, is not answered
    with 400; the default fills the field, the text is sent and the answer
    is 200. *)
Lemma missing_employment_status_counterexample :
  is_job_application job_form = true
  /\ first_missing job_required_fields job_form
     = Some ("employmentStatus", "Situação de emprego é obrigatória")
  /\ status (result (handle_submission world_up job_request)) = 200%N
  /\ existsb is_outbound (trace (handle_submission world_up job_request)) = true
  /\ ~ (result (handle_submission world_up job_request)
        = mkResponse 400 false "Situação de emprego é obrigatória" None
        /\ forall e, In e (trace (handle_submission world_up job_request)) ->
                     is_outbound e = false).
Proof.
  assert (E : status (result (handle_submission world_up job_request)) = 200%N)
    by (vm_compute; reflexivity).
  repeat split; try (vm_compute; reflexivity).
  intros [H _]. rewrite H in E. discriminate.
Qed.

(** C7, amended.  For a JSON request with a body that is not empty: when
    the form lacks (absent or empty) a required field of the resolved
    schema that no default fills (any of the sixteen for a card
    application; [firstName], [email], [phone] or [country] for a job
    application), the answer is 400 with the message of the first such
    field in the order of the required fields, and the request makes no
    outbound call. *)
Theorem missing_required_field_rejected (w : World) (req : request)
    (field msg : string) :
  is_json req = true ->
  truthy_dict (get_json req) = true ->
  first_missing (undefaulted_required (is_job_application (form_of req))) (form_of req)
  = Some (field, msg) ->
  result (handle_submission w req) = mkResponse 400 false msg None
  /\ (forall e, In e (trace (handle_submission w req)) -> is_outbound e = false)
  /\ exists before after,
       undefaulted_required (is_job_application (form_of req))
       = (before ++ (field, msg) :: after)%list
       /\ truthy_opt (get (form_of req) field) = false
       /\ forall f m, In (f, m) before -> truthy_opt (get (form_of req) f) = true.
Proof.
  intros Hj Hd Hfm.
  pose proof (validate_submission_cases w req) as H. cbv zeta in H.
  rewrite required_check_on_raw_form, Hfm in H.
  destruct H as [(H & _)|[(_ & H & _)|(_ & _ & [(f & m & F & H)|(F & _)])]];
    try congruence.
  injection F as <- <-.
  pose proof (validate_submission_quiet w req) as Hq.
  rewrite (handle_submission_rejected w req _ _ H).
  rewrite H in Hq. cbn [result trace fst snd] in *.
  split; [reflexivity|]. split; [exact Hq|].
  now apply first_missing_Some.
Qed.

(** C7 amended, on a run: a card application without a birthdate. *)
Lemma missing_required_field_rejected_witness :
  result (handle_submission world_up
            (submission (set card_form "birthdate" "") three_photos))
  = mkResponse 400 false "Data de nascimento é obrigatória" None
  /\ forallb (fun e => negb (is_outbound e))
       (trace (handle_submission world_up
                 (submission (set card_form "birthdate" "") three_photos))) = true.
Proof.
  split; [|reflexivity].
  exact (proj1 (missing_required_field_rejected world_up
                  (submission (set card_form "birthdate" "") three_photos)
                  "birthdate" "Data de nascimento é obrigatória"
                  eq_refl eq_refl eq_refl)).
Defined.

(** C8.  When the answer carries an [applicationId], the submission passed
    every check and the dispatcher returned [True]; the identifier is [JH]
    for a job application and [NC] for a card application, followed by
    exactly eight characters, each a digit or a letter from [A] to [F]. *)
Theorem application_id_shape (w : World) (req : request) (id : string) :
  applicationId (result (handle_submission w req)) = Some id ->
  exists v t hex,
    validate_submission w req = (inr v, t)
    /\ result (send_to_telegram w (message_of v) (v_photos v)) = true
    /\ status (result (handle_submission w req)) = 200%N
    /\ id = (if is_job_application (form_of req) then "JH" else "NC") ++ hex
    /\ String.length hex = 8
    /\ forallb_str is_upper_hex hex = true.
Proof.
  intros Hid.
  pose proof (handle_submission_answers w req) as H. cbv zeta in H.
  destruct H as [H|[H|[(f & m & _ & H)|[H|[H|[H|[(p & _ & H)|[(v & t & _ & _ & H)|
                (v & t & Hv & Hok & H)]]]]]]]];
    rewrite H in Hid; try discriminate.
  injection Hid as <-.
  exists v, t, (upper (token_hex w 4)).
  destruct (token_hex_shape w) as [L U].
  destruct (validate_submission_passed w req v t Hv) as (_ & _ & Ev & _).
  split; [exact Hv|]. split; [now rewrite send_to_telegram_result, Hok|].
  split; [now rewrite H|].
  split; [unfold application_id; now rewrite Ev|]. auto.
Qed.

(** C8, on a run. *)
Lemma application_id_shape_witness :
  exists hex,
    "JHDEADBEEF" = "JH" ++ hex
    /\ String.length hex = 8
    /\ forallb_str is_upper_hex hex = true.
Proof.
  destruct (application_id_shape world_up job_request "JHDEADBEEF" eq_refl)
    as (v & t & hex & _ & _ & _ & E & L & U).
  exists hex. auto.
Defined.

(** C9, on the code: an email made of a text of the shape and a final
    newline is not of the shape, and [validate_email] accepts it; a card
    application that carries it passes the checks and is answered 200. *)
Theorem validate_email_accepts_trailing_newline :
  newline_email = "ana@example.com" ++ nl
  /\ ~ local_at_domain_tld newline_email
  /\ validate_email newline_email = true
  /\ result (handle_submission world_up newline_email_request)
     = mkResponse 200 true "Dados enviados com sucesso" (Some "NCDEADBEEF").
Proof.
  split; [reflexivity|]. split; [|split; vm_compute; reflexivity].
  intros H. apply shape_has_no_newline in H. vm_compute in H. discriminate.
Qed.

(** C10.  For a job application the required check never fails on
    [employmentStatus]: the answer never carries the message of that
    field, and the warning of a missing [employmentStatus] is never
    logged. *)
Theorem job_never_fails_on_employment_status (w : World) (req : request) :
  is_job_application (form_of req) = true ->
  first_missing (required_of req) (checked_form req)
  <> Some ("employmentStatus", "Situação de emprego é obrigatória")
  /\ message (result (handle_submission w req)) <> "Situação de emprego é obrigatória"
  /\ ~ In (Log WARNING "Campo obrigatório faltando: employmentStatus")
          (trace (handle_submission w req)).
Proof.
  intros Hjob.
  assert (Hfour : forall field msg,
             first_missing (required_of req) (checked_form req) = Some (field, msg) ->
             In (field, msg)
                [ ("firstName", "Nome é obrigatório"); ("email", "Email é obrigatório");
                  ("phone", "Telefone é obrigatório"); ("country", "País é obrigatório") ]).
  { intros field msg H. rewrite required_check_on_raw_form, Hjob in H.
    now apply first_missing_In in H. }
  split; [|split].
  - intros H. apply Hfour in H. cbn [In] in H.
    repeat destruct H as [H|H]; try discriminate. contradiction.
  - pose proof (handle_submission_answers w req) as H. cbv zeta in H.
    destruct H as [H|[H|[(f & m & F & H)|[H|[H|[H|[(p & P & H)|[(v & t & _ & _ & H)|
                  (v & t & _ & _ & H)]]]]]]]];
      rewrite H; cbn [message resp400 resp500]; try discriminate.
    apply Hfour in F. cbn [In] in F.
    repeat destruct F as [F|F]; try contradiction;
      injection F as <- <-; discriminate.
  - intros Hin.
    destruct (warning_is_required_failure w req _ Hin) as (f & m & E & F).
    apply Hfour in F. cbn [In] in F.
    repeat destruct F as [F|F]; try contradiction;
      injection F as <- <-; discriminate.
Qed.

(** C10, on a run: a job application without [employmentStatus] is not
    turned down for it. *)
Lemma job_never_fails_on_employment_status_witness :
  get job_form "employmentStatus" = None
  /\ message (result (handle_submission world_up job_request))
     <> "Situação de emprego é obrigatória".
Proof.
  split; [reflexivity|].
  exact (proj1 (proj2 (job_never_fails_on_employment_status world_up job_request
                         eq_refl))).
Defined.

End Pipeline.

(* ================================================================== *)
(** * Further properties of the validators *)

Section ValidatorFacts.
Import Py Re Validators Observe More.




Lemma count_str_app p a b : count_str p (a ++ b) = count_str p a + count_str p b.
Proof.
  induction a as [|c a IH]; [reflexivity|].
  cbn [append count_str]. rewrite IH. lia.
Qed.

Lemma count_str_none (p q : ascii -> bool) s :
  (forall c, p c = true -> q c = false) ->
  forallb_str p s = true -> count_str q s = 0.
Proof.
  intros Hpq. induction s as [|c s IH]; [reflexivity|].
  cbn [forallb_str count_str]. rewrite andb_true_iff. intros [Hc Hs].
  rewrite (Hpq c Hc). auto.
Qed.





Lemma local_char_not_at c : local_char c = true -> is_at c = false.
Proof. destruct c as [[] [] [] [] [] [] [] []]; vm_compute; auto. Qed.

Lemma domain_char_not_at c : domain_char c = true -> is_at c = false.
Proof. destruct c as [[] [] [] [] [] [] [] []]; vm_compute; auto. Qed.

Lemma is_alpha_not_at c : is_alpha c = true -> is_at c = false.
Proof. destruct c as [[] [] [] [] [] [] [] []]; vm_compute; auto. Qed.

Lemma local_char_not_blank c : local_char c = true -> Ascii.eqb c " " = false.
Proof. destruct c as [[] [] [] [] [] [] [] []]; vm_compute; auto. Qed.

Lemma domain_char_not_blank c : domain_char c = true -> Ascii.eqb c " " = false.
Proof. destruct c as [[] [] [] [] [] [] [] []]; vm_compute; auto. Qed.

Lemma is_alpha_not_blank c : is_alpha c = true -> Ascii.eqb c " " = false.
Proof. destruct c as [[] [] [] [] [] [] [] []]; vm_compute; auto. Qed.

Lemma nonempty_length s : s <> "" -> 1 <= String.length s.
Proof. destruct s; [congruence | cbn; lia]. Qed.

Lemma shape_facts s :
  local_at_domain_tld s ->
  count_str is_at s = 1
  /\ count_str (fun c => Ascii.eqb c " ") s = 0
  /\ 6 <= String.length s.
Proof.
  intros (l & d & t & -> & Hl0 & Hl & Hd0 & Hd & Ht0 & Ht).
  rewrite !count_str_app, !length_append.
  rewrite (count_str_none _ _ _ local_char_not_at Hl).
  rewrite (count_str_none _ _ _ domain_char_not_at Hd).
  rewrite (count_str_none _ _ _ is_alpha_not_at Ht).
  rewrite (count_str_none _ _ _ local_char_not_blank Hl).
  rewrite (count_str_none _ _ _ domain_char_not_blank Hd).
  rewrite (count_str_none _ _ _ is_alpha_not_blank Ht).
  apply nonempty_length in Hl0. apply nonempty_length in Hd0.
  cbn [count_str String.length is_at Ascii.eqb Bool.eqb]. repeat split; lia.
Qed.

(** X3.  An email that [validate_email] accepts holds exactly one [@], no
    blank, and at least six characters. *)
Theorem validate_email_necessary (s : string) :
  validate_email s = true ->
  count_str is_at s = 1
  /\ count_str (fun c => Ascii.eqb c " ") s = 0
  /\ 6 <= String.length s.
Proof.
  intros H. apply validate_email_accepts in H as [H | (s' & -> & H)].
  - now apply shape_facts.
  - destruct (shape_facts s' H) as (A & B & C).
    rewrite !count_str_app, length_append, A, B.
    cbn. repeat split; lia.
Qed.

Lemma validate_email_necessary_witness :
  count_str is_at "ana.silva+jobs@mail.example.com" = 1
  /\ 6 <= String.length "ana.silva+jobs@mail.example.com".
Proof.
  destruct (validate_email_necessary "ana.silva+jobs@mail.example.com" eq_refl)
    as (A & _ & C).
  split; assumption.
Defined.

End ValidatorFacts.

(** * Further properties of the birthdate validator *)

Section BirthdateFacts.
Import Py Dates More.
Open Scope Z_scope.

Lemma strptime_valid s d : strptime s = Some d -> valid_date d = true.
Proof.
  unfold strptime. destruct (format_regex s) as [|[d0 rest] tl]; [discriminate|].
  destruct (negb (String.eqb rest "")); [discriminate|].
  destruct (valid_date d0) eqn:E; [|discriminate].
  now intros [= <-].
Qed.

Lemma re_m_unpadded m r :
  1 <= m <= 12 ->
  exists tl, re_m (unpadded m ++ String "-" r)%string = (m, String "-" r) :: tl.
Proof.
  intros H.
  assert (E : m = 1 \/ m = 2 \/ m = 3 \/ m = 4 \/ m = 5 \/ m = 6 \/ m = 7
              \/ m = 8 \/ m = 9 \/ m = 10 \/ m = 11 \/ m = 12) by lia.
  repeat destruct E as [-> | E]; try subst m; eexists; reflexivity.
Qed.

Lemma re_d_unpadded d :
  1 <= d <= 31 -> exists tl, re_d (unpadded d) = (d, ""%string) :: tl.
Proof.
  intros H.
  assert (E : d = 1 \/ d = 2 \/ d = 3 \/ d = 4 \/ d = 5 \/ d = 6 \/ d = 7
              \/ d = 8 \/ d = 9 \/ d = 10 \/ d = 11 \/ d = 12 \/ d = 13
              \/ d = 14 \/ d = 15 \/ d = 16 \/ d = 17 \/ d = 18 \/ d = 19
              \/ d = 20 \/ d = 21 \/ d = 22 \/ d = 23 \/ d = 24 \/ d = 25
              \/ d = 26 \/ d = 27 \/ d = 28 \/ d = 29 \/ d = 30 \/ d = 31) by lia.
  repeat destruct E as [-> | E]; try subst d; eexists; reflexivity.
Qed.

Lemma strptime_loose_format d : valid_date d = true -> strptime (loose_format d) = Some d.
Proof.
  intros Hv. destruct (valid_date_bounds d Hv) as (Hy & Hm & Hd).
  unfold strptime.
  assert (E : exists tl, format_regex (loose_format d) = (d, ""%string) :: tl).
  { unfold format_regex, loose_format.
    unfold pbind at 1. rewrite re_Y_pad4 by lia. cbn [flat_map fst snd].
    rewrite app_nil_r.
    unfold pbind at 1. cbn [pchar append Ascii.eqb Bool.eqb flat_map fst snd].
    rewrite app_nil_r.
    unfold pbind at 1.
    destruct (re_m_unpadded (month d) (unpadded (day d)) Hm) as [tl1 ->].
    cbn [flat_map fst snd].
    unfold pbind at 1. cbn [pchar append Ascii.eqb Bool.eqb flat_map fst snd].
    rewrite app_nil_r.
    unfold pbind at 1.
    destruct (re_d_unpadded (day d) Hd) as [tl2 ->].
    cbn [flat_map fst snd pret app].
    destruct d. eexists. reflexivity. }
  destruct E as [tl ->]. cbn [String.eqb negb]. now rewrite Hv.
Qed.

(** X4.  A birthdate accepted today is accepted on every later day: the
    verdict of [validate_birthdate] never turns from true to false as the
    current date moves on. *)
Theorem validate_birthdate_monotone (today later : date) (s : string) :
  date_le today later ->
  validate_birthdate today s = true ->
  validate_birthdate later s = true.
Proof.
  unfold validate_birthdate, date_le.
  destruct (strptime s) as [b|]; [|discriminate].
  rewrite !Z.leb_le. unfold age_on. intros Hle.
  destruct (tuple_lt (month today, day today) (month b, day b)) eqn:E1;
    destruct (tuple_lt (month later, day later) (month b, day b)) eqn:E2;
    cbn [bool_to_Z]; try lia.
  apply tuple_lt_spec in E2.
  assert (N : ~ (month today < month b \/ (month today = month b /\ day today < day b)))
    by (rewrite <- tuple_lt_spec; congruence).
  lia.
Qed.

Lemma validate_birthdate_monotone_witness :
  validate_birthdate (mkdate 2024 6 15) "2006-06-15" = true
  /\ validate_birthdate (mkdate 2025 1 1) "2006-06-15" = true.
Proof.
  split; [reflexivity|].
  apply (validate_birthdate_monotone (mkdate 2024 6 15) (mkdate 2025 1 1)).
  - unfold date_le. cbn. lia.
  - reflexivity.
Defined.

(** X5.  What [validate_birthdate] accepts is a date of the calendar whose
    year is at most the current year minus 18; and a date that parses with
    a year below the current year minus 18 is accepted whatever its month
    and day.  The month and the day matter in the boundary year only. *)
Theorem validate_birthdate_year_bounds (today : date) (s : string) :
  (validate_birthdate today s = true ->
   exists b, strptime s = Some b /\ valid_date b = true
             /\ year b <= year today - 18)
  /\ (forall b, strptime s = Some b -> year b < year today - 18 ->
      validate_birthdate today s = true).
Proof.
  unfold validate_birthdate. split.
  - destruct (strptime s) as [b|] eqn:E; [|discriminate].
    rewrite Z.leb_le. unfold age_on. intros H. exists b.
    split; [reflexivity|]. split; [now apply (strptime_valid s)|].
    destruct (tuple_lt _ _); cbn [bool_to_Z] in H; lia.
  - intros b -> Hy. rewrite Z.leb_le. unfold age_on.
    destruct (tuple_lt _ _); cbn [bool_to_Z]; lia.
Qed.

Lemma validate_birthdate_year_bounds_witness :
  validate_birthdate (mkdate 2024 6 15) "2005-12-31" = true
  /\ exists b, strptime "2006-06-15" = Some b /\ year b <= 2024 - 18.
Proof.
  destruct (validate_birthdate_year_bounds (mkdate 2024 6 15) "2005-12-31") as [_ H].
  split.
  - apply (H (mkdate 2005 12 31)); [reflexivity | cbn; lia].
  - destruct (validate_birthdate_year_bounds (mkdate 2024 6 15) "2006-06-15") as [H' _].
    destruct (H' eq_refl) as (b & E & _ & Hy). exists b. auto.
Defined.

(** X6.  The month and the day may be written without a leading zero: for
    every date of the calendar, the text with unpadded month and day is
    parsed to the same date as the ISO text, and [validate_birthdate]
    gives both the same verdict. *)
Theorem validate_birthdate_unpadded (today d : date) :
  valid_date d = true ->
  strptime (loose_format d) = Some d
  /\ strptime (isoformat d) = Some d
  /\ validate_birthdate today (loose_format d)
     = validate_birthdate today (isoformat d).
Proof.
  intros Hv. pose proof (strptime_loose_format d Hv) as E1.
  pose proof (strptime_isoformat d Hv) as E2.
  unfold validate_birthdate. rewrite E1, E2. auto.
Qed.

Lemma validate_birthdate_unpadded_witness :
  loose_format (mkdate 1990 3 7) = "1990-3-7"%string
  /\ validate_birthdate (mkdate 2024 6 15) "1990-3-7" = true.
Proof.
  split; [reflexivity|].
  destruct (validate_birthdate_unpadded (mkdate 2024 6 15) (mkdate 1990 3 7) eq_refl)
    as (_ & _ & E).
  exact (eq_trans E eq_refl).
Defined.

End BirthdateFacts.

(** * Further properties of the image decoder *)

Section DecoderFacts.
Import Py Effects EffNotations Server Observe More.
Variable w : World.

Lemma contains_app c a b : contains c (a ++ b) = contains c a || contains c b.
Proof.
  induction a as [|x a IH]; [reflexivity|].
  cbn [append contains]. now rewrite IH, orb_assoc.
Qed.

Lemma split_no_sep c s : contains c s = false -> split c s = [s].
Proof.
  induction s as [|x s IH]; [reflexivity|].
  cbn [contains split]. rewrite orb_false_iff. intros [Hx Hs].
  rewrite Hx, (IH Hs). reflexivity.
Qed.

Lemma split_prefix c pre rest :
  contains c pre = false ->
  split c (pre ++ String c rest) = pre :: split c rest.
Proof.
  induction pre as [|x pre IH]; cbn [append contains split].
  - intros _. now rewrite Ascii.eqb_refl.
  - rewrite orb_false_iff. intros [Hx Hp]. rewrite Hx, (IH Hp). reflexivity.
Qed.

(** The text [process_image_data] hands to the decoder. *)
Lemma process_image_data_payload photo payload :
  (if contains "," photo then nth 1 (split "," photo) "" else photo) = payload ->
  process_image_data w photo
  = match b64decode w payload with
    | inl msg =>
        (inl (Exception msg), [Log ERROR ("Erro ao processar imagem: " ++ msg)])
    | inr image_data =>
        if negb (validate_image_size image_data 10)
        then (inl (Exception "Imagem muito grande"),
              [Log ERROR "Erro ao processar imagem: Imagem muito grande"])
        else (inr image_data, [])
    end.
Proof.
  intros <-. unfold process_image_data.
  destruct (contains "," photo);
    (destruct (b64decode w _) as [msg|d];
     [reflexivity | destruct (negb (validate_image_size d 10)); reflexivity]).
Qed.

(** X7.  [process_image_data] either returns bytes, and then they are at
    most 10 MiB and nothing was logged, or it raises, and then exactly one
    error record was logged, with the text of the exception; it never calls
    the network. *)
Theorem process_image_data_outcome (photo : string) :
  match result (process_image_data w photo) with
  | inr image_data =>
      (N.of_nat (List.length image_data) <= max_image_bytes)%N
      /\ trace (process_image_data w photo) = []
  | inl e =>
      trace (process_image_data w photo)
      = [Log ERROR ("Erro ao processar imagem: " ++ str_exn e)]
  end.
Proof.
  rewrite (process_image_data_payload photo _ eq_refl).
  destruct (b64decode w _) as [msg|d]; [reflexivity|].
  destruct (validate_image_size d 10) eqn:E; cbn [negb result trace fst snd];
    [|reflexivity].
  split; [|reflexivity]. unfold validate_image_size in E.
  apply N.leb_le in E. exact E.
Qed.

(** X8.  A payload that decodes to more than 10 MiB is turned down with
    [Imagem muito grande], and one that decodes to at most 10 MiB is
    returned as decoded. *)
Theorem process_image_data_size_ceiling (photo : string) (image_data : bytes) :
  contains "," photo = false ->
  b64decode w photo = inr image_data ->
  ((N.of_nat (List.length image_data) <= max_image_bytes)%N ->
   result (process_image_data w photo) = inr image_data)
  /\ ((max_image_bytes < N.of_nat (List.length image_data))%N ->
      result (process_image_data w photo) = inl (Exception "Imagem muito grande")).
Proof.
  intros Hc Hd.
  rewrite (process_image_data_payload photo photo) by now rewrite Hc.
  rewrite Hd. unfold validate_image_size.
  change (10 * 1024 * 1024)%N with max_image_bytes.
  split; intros H.
  - apply N.leb_le in H. now rewrite H.
  - apply N.leb_gt in H. now rewrite H.
Qed.

(** X9.  A payload with a prefix, as in a data URL: what stands before the
    first comma is dropped, and what follows a second comma is ignored; the
    text between them is what gets decoded. *)
Theorem process_image_data_drops_prefix (pre body tail : string) :
  no_comma pre = true ->
  no_comma body = true ->
  process_image_data w (pre ++ "," ++ body) = process_image_data w body
  /\ process_image_data w (pre ++ "," ++ body ++ "," ++ tail)
     = process_image_data w body.
Proof.
  unfold no_comma. rewrite !negb_true_iff. intros Hp Hb.
  rewrite (process_image_data_payload body body) by now rewrite Hb.
  split.
  - apply process_image_data_payload.
    rewrite contains_app. cbn [append contains Ascii.eqb Bool.eqb].
    rewrite orb_true_r.
    rewrite (split_prefix "," pre body Hp), (split_no_sep "," body Hb). reflexivity.
  - apply process_image_data_payload.
    rewrite contains_app. cbn [append contains Ascii.eqb Bool.eqb].
    rewrite orb_true_r.
    rewrite (split_prefix "," pre (body ++ String "," tail) Hp).
    rewrite (split_prefix "," body tail Hb). reflexivity.
Qed.

End DecoderFacts.

Section DecoderRuns.
Import Py Effects Server Observe More Examples.

Lemma process_image_data_size_ceiling_witness :
  result (process_image_data world_up "QUJD") = inr ["A"%byte; "B"%byte; "C"%byte].
Proof.
  refine (proj1 (process_image_data_size_ceiling world_up "QUJD"
                   ["A"%byte; "B"%byte; "C"%byte] eq_refl eq_refl) _).
  vm_compute. discriminate.
Defined.

Lemma process_image_data_drops_prefix_witness :
  process_image_data world_up "data:image/jpeg;base64,QUJD"
  = process_image_data world_up "QUJD"
  /\ process_image_data world_up "data:image/jpeg;base64,QUJD,REVG"
     = process_image_data world_up "QUJD".
Proof.
  exact (process_image_data_drops_prefix world_up "data:image/jpeg;base64" "QUJD" "REVG"
           eq_refl eq_refl).
Defined.

End DecoderRuns.

(** * Further properties of the handler: its outbound calls *)

Section OutboundFacts.
Import Py Effects EffNotations Server Observe More.
Variable w : World.

Lemma outbound_calls_app t1 t2 :
  outbound_calls (t1 ++ t2) = (outbound_calls t1 ++ outbound_calls t2)%list.
Proof. unfold outbound_calls. apply flat_map_app. Qed.

Lemma outbound_calls_quiet tr :
  (forall e, In e tr -> is_outbound e = false) -> outbound_calls tr = [].
Proof.
  induction tr as [|e tr IH]; [reflexivity|]. intros H.
  pose proof (H e (or_introl eq_refl)) as He.
  destruct e as [l m|c]; [|discriminate].
  cbn [outbound_calls flat_map app]. apply IH. intros e' He'. apply H. now right.
Qed.

Lemma outbound_calls_In tr c : In c (outbound_calls tr) <-> In (Post c) tr.
Proof.
  unfold outbound_calls. rewrite in_flat_map. split.
  - intros ([l m|c'] & Hin & H); cbn [In] in H; [contradiction|].
    destruct H as [<-|[]]. exact Hin.
  - intros H. exists (Post c). split; [exact H | now left].
Qed.

Lemma outbound_calls_send_photo item :
  outbound_calls (trace (send_photo w item)) = upload_of w item.
Proof.
  unfold send_photo, upload_of.
  destruct (truthy (snd item)); [|reflexivity].
  rewrite trace_bind, outbound_calls_app.
  rewrite (outbound_calls_quiet _ (trace_process_image_data w (snd item))).
  destruct (result (process_image_data w (snd item))) as [e|d]; [reflexivity|].
  rewrite trace_bind, outbound_calls_app, trace_post.
  destruct (result (post w (photo_call w (fst item) d))) as [[m|m]|u]; reflexivity.
Qed.

Lemma outbound_calls_loop photos :
  outbound_calls (flat_map (fun item => trace (send_photo w item)) photos)
  = flat_map (upload_of w) photos.
Proof.
  induction photos as [|item photos IH]; [reflexivity|].
  cbn [flat_map]. now rewrite outbound_calls_app, outbound_calls_send_photo, IH.
Qed.

Lemma outbound_calls_dispatch v :
  outbound_calls (trace (dispatch w v))
  = text_call w (message_of v)
    :: (if call_failed w (text_call w (message_of v)) then []
        else flat_map (upload_of w) (v_photos v)).
Proof.
  destruct (call_failed w (text_call w (message_of v))) eqn:E.
  - destruct (dispatch_text_failed w v E) as [m ->]. reflexivity.
  - rewrite (dispatch_text_ok w v E). cbn [trace snd].
    rewrite (send_to_telegram_text_ok w _ _ E). cbn [trace snd].
    rewrite outbound_calls_app.
    change (Post (text_call w (message_of v)) :: ?x)
      with ([Post (text_call w (message_of v))] ++ x)%list.
    rewrite outbound_calls_app, outbound_calls_app, outbound_calls_loop.
    cbn [outbound_calls flat_map app]. now rewrite !app_nil_r.
Qed.

Lemma process_image_data_bounded photo d :
  result (process_image_data w photo) = inr d ->
  (N.of_nat (List.length d) <= max_image_bytes)%N.
Proof.
  rewrite (process_image_data_payload w photo _ eq_refl).
  destruct (b64decode w _) as [msg|d0]; [discriminate|].
  destruct (validate_image_size d0 10) eqn:E; cbn [negb result fst]; [|discriminate].
  intros [= <-]. now apply N.leb_le in E.
Qed.

Lemma upload_of_In item c :
  In c (upload_of w item) ->
  truthy (snd item) = true
  /\ exists d, result (process_image_data w (snd item)) = inr d
               /\ c = photo_call w (fst item) d.
Proof.
  unfold upload_of. destruct (truthy (snd item)); [|intros []].
  destruct (result (process_image_data w (snd item))) as [e|d]; [intros []|].
  intros [<-|[]]. eauto.
Qed.

Lemma upload_of_length item :
  List.length (upload_of w item) <= (if truthy (snd item) then 1 else 0).
Proof.
  unfold upload_of. destruct (truthy (snd item)); [|auto].
  destruct (result (process_image_data w (snd item))); cbn; lia.
Qed.

Lemma uploads_length photos :
  List.length (flat_map (upload_of w) photos) <= count_photos photos.
Proof.
  rewrite count_photos_items.
  induction photos as [|item photos IH]; [auto|].
  cbn [flat_map filter]. rewrite length_app.
  pose proof (upload_of_length item).
  destruct (truthy (snd item)); cbn [List.length]; lia.
Qed.

(** The outbound calls of a request. *)
Lemma outbound_calls_handle req :
  match result (validate_submission w req) with
  | inl _ => outbound_calls (trace (handle_submission w req)) = []
  | inr v =>
      outbound_calls (trace (handle_submission w req))
      = text_call w (message_of v)
        :: (if call_failed w (text_call w (message_of v)) then []
            else flat_map (upload_of w) (v_photos v))
  end.
Proof.
  pose proof (validate_submission_quiet w req) as Hq.
  destruct (validate_submission w req) as [[r|v] t] eqn:E; cbn [result fst].
  - rewrite (handle_submission_rejected w req r t E). cbn [trace snd] in *.
    now apply outbound_calls_quiet.
  - rewrite (handle_submission_validated w req v t E). cbn [trace snd] in *.
    rewrite outbound_calls_app, (outbound_calls_quiet t Hq).
    apply outbound_calls_dispatch.
Qed.

(** X10.  The handler calls the messaging API only for a submission that
    passed every check: a request answered with 400 has made no outbound
    call, and so has any request that did not reach the formatter. *)
Theorem no_outbound_call_before_validation (req : request) (c : call) :
  In (Post c) (trace (handle_submission w req)) ->
  (exists v t, validate_submission w req = (inr v, t))
  /\ status (result (handle_submission w req)) <> 400%N.
Proof.
  intros Hin. apply outbound_calls_In in Hin.
  pose proof (outbound_calls_handle req) as H.
  destruct (validate_submission w req) as [[r|v] t] eqn:E; cbn [result fst] in H.
  - rewrite H in Hin. destruct Hin.
  - split; [eauto|].
    rewrite (handle_submission_validated w req v t E). cbn [result fst].
    destruct (call_failed w (text_call w (message_of v))) eqn:F.
    + destruct (dispatch_text_failed w v F) as [m ->]. cbn. discriminate.
    + rewrite (dispatch_text_ok w v F). cbn. discriminate.
Qed.

(** X11.  One text, then the uploads: for a submission that reaches
    dispatch the first outbound call is the text call, it is made once, and
    each entry of the photos mapping with a payload is uploaded at most
    once, so that a request makes at most one call more than it has
    photos with a payload.  Nothing is tried again. *)
Theorem outbound_calls_bounded (req : request) (v : validated) (t : list event) :
  validate_submission w req = (inr v, t) ->
  (exists ups,
      outbound_calls (trace (handle_submission w req))
      = text_call w (message_of v) :: ups
      /\ ups = uploads (trace (handle_submission w req)))
  /\ texts (trace (handle_submission w req)) = [message_of v]
  /\ List.length (outbound_calls (trace (handle_submission w req)))
     <= 1 + count_photos (photos_of req).
Proof.
  intros E. pose proof (outbound_calls_handle req) as H.
  rewrite E in H. cbn [result fst] in H.
  destruct (validate_submission_passed w req v t E) as (_ & _ & Ev & _).
  assert (Ephotos : v_photos v = photos_of req) by now rewrite Ev.
  pose proof (validate_submission_quiet w req) as Hq.
  rewrite E in Hq. cbn [trace snd] in Hq.
  assert (Hup : uploads (trace (handle_submission w req))
                = if call_failed w (text_call w (message_of v)) then []
                  else flat_map (upload_of w) (v_photos v)).
  { rewrite (handle_submission_validated w req v t E). cbn [trace snd].
    rewrite uploads_app, (uploads_no_outbound t Hq). cbn [app].
    destruct (call_failed w (text_call w (message_of v))) eqn:F.
    - destruct (dispatch_text_failed w v F) as [m ->]. reflexivity.
    - rewrite (dispatch_text_ok w v F). cbn [trace snd].
      rewrite (send_to_telegram_text_ok w _ _ F). cbn [trace snd].
      rewrite uploads_app. unfold text_call at 1. cbn [uploads].
      rewrite uploads_app, uploads_flat_map. cbn [uploads].
      rewrite !app_nil_r. apply flat_map_ext. intros item.
      apply uploads_send_photo. }
  split; [|split].
  - eexists. split; [exact H|]. now rewrite Hup.
  - rewrite (handle_submission_validated w req v t E). cbn [trace snd].
    now rewrite texts_app, (texts_quiet t Hq), texts_dispatch.
  - rewrite H. cbn [List.length].
    destruct (call_failed w (text_call w (message_of v))); cbn [List.length]; [lia|].
    pose proof (uploads_length (v_photos v)). rewrite Ephotos in *. lia.
Qed.

(** X12.  Every upload the handler makes carries the decoding of an entry
    of the photos mapping whose payload is not empty, of at most 10 MiB,
    under a file name and a caption made from the key of the entry; and it
    is made only after the text call went through. *)
Theorem uploads_are_checked_photos (req : request) (c : call) :
  In c (uploads (trace (handle_submission w req))) ->
  exists v t p photo d,
    validate_submission w req = (inr v, t)
    /\ call_failed w (text_call w (message_of v)) = false
    /\ In (p, photo) (photos_of req)
    /\ truthy photo = true
    /\ result (process_image_data w photo) = inr d
    /\ (N.of_nat (List.length d) <= max_image_bytes)%N
    /\ c = photo_call w p d.
Proof.
  intros Hin.
  pose proof (validate_submission_quiet w req) as Hq.
  destruct (validate_submission w req) as [[r|v] t] eqn:E.
  - rewrite (handle_submission_rejected w req r t E) in Hin.
    cbn [trace snd] in *. rewrite (uploads_no_outbound t Hq) in Hin. destruct Hin.
  - destruct (validate_submission_passed w req v t E) as (_ & _ & Ev & _).
    assert (Ephotos : v_photos v = photos_of req) by now rewrite Ev.
    rewrite (handle_submission_validated w req v t E) in Hin.
    cbn [trace snd] in *.
    rewrite uploads_app, (uploads_no_outbound t Hq) in Hin. cbn [app] in Hin.
    destruct (call_failed w (text_call w (message_of v))) eqn:F.
    + destruct (dispatch_text_failed w v F) as [m Hd]. rewrite Hd in Hin.
      destruct Hin.
    + rewrite (dispatch_text_ok w v F) in Hin. cbn [trace snd] in Hin.
      rewrite (send_to_telegram_text_ok w _ _ F) in Hin. cbn [trace snd] in Hin.
      rewrite uploads_app in Hin. unfold text_call at 1 in Hin. cbn [uploads] in Hin.
      rewrite uploads_app, uploads_flat_map in Hin. cbn [uploads] in Hin.
      rewrite !app_nil_r in Hin.
      apply in_flat_map in Hin as ([p photo] & Hitem & Hc).
      rewrite uploads_send_photo in Hc.
      apply upload_of_In in Hc as (Ht & d & Hd & ->). cbn [fst snd] in *.
      exists v, t, p, photo, d. rewrite <- Ephotos.
      repeat split; auto. now apply process_image_data_bounded in Hd.
Qed.

(** X13.  Every outbound call goes to the Bot API under the configured
    token and to the configured chat: the text call to [sendMessage] with
    a timeout of 10 and Markdown parsing, an upload to [sendPhoto] with a
    timeout of 30 and the JPEG type. *)
Theorem outbound_calls_addressed (req : request) (c : call) :
  In (Post c) (trace (handle_submission w req)) ->
  call_chat_id c = Some (TELEGRAM_CHAT_ID w)
  /\ ((call_url c = "https://api.telegram.org/bot" ++ TELEGRAM_BOT_TOKEN w ++ "/sendMessage"
       /\ call_timeout c = 10%N
       /\ exists text, c = SendMessage (call_url c)
                             [ ("chat_id", TELEGRAM_CHAT_ID w); ("text", text);
                               ("parse_mode", "Markdown") ] 10)
      \/ (call_url c = "https://api.telegram.org/bot" ++ TELEGRAM_BOT_TOKEN w ++ "/sendPhoto"
          /\ call_timeout c = 30%N
          /\ exists filename d data,
               c = SendPhoto (call_url c) filename d "image/jpeg" data 30)).
Proof.
  intros Hin. apply outbound_calls_In in Hin.
  pose proof (outbound_calls_handle req) as H.
  destruct (result (validate_submission w req)) as [r|v].
  - rewrite H in Hin. destruct Hin.
  - rewrite H in Hin. destruct Hin as [<-|Hin].
    + split; [reflexivity|]. left. unfold text_call. cbn [call_url call_timeout].
      repeat split. eexists. reflexivity.
    + destruct (call_failed w (text_call w (message_of v))); [destruct Hin|].
      apply in_flat_map in Hin as (item & _ & Hc).
      apply upload_of_In in Hc as (_ & d & _ & ->).
      split; [reflexivity|]. right. unfold photo_call. cbn [call_url call_timeout].
      repeat split. do 3 eexists. reflexivity.
Qed.

End OutboundFacts.

Section OutboundRuns.
Import Py Effects Server Observe More Examples.

Lemma no_outbound_call_before_validation_witness :
  status (result (handle_submission world_up card_request)) <> 400%N.
Proof.
  refine (proj2 (no_outbound_call_before_validation world_up card_request
                   (text_call world_up
                      (message_of (mkValidated false card_form three_photos))) _)).
  vm_compute. tauto.
Defined.

Lemma outbound_calls_bounded_witness :
  List.length (outbound_calls (trace (handle_submission world_back_down card_request)))
  <= 1 + 3.
Proof.
  exact (proj2 (proj2 (outbound_calls_bounded world_back_down card_request
                         (mkValidated false card_form three_photos)
                         [received card_request] eq_refl))).
Defined.

Lemma uploads_are_checked_photos_witness :
  exists p photo d,
    In (p, photo) three_photos
    /\ (N.of_nat (List.length d) <= max_image_bytes)%N
    /\ photo_call world_up "back" ["D"%byte; "E"%byte; "F"%byte]
       = photo_call world_up p d.
Proof.
  destruct (uploads_are_checked_photos world_up card_request
              (photo_call world_up "back" ["D"%byte; "E"%byte; "F"%byte]))
    as (v & t & p & photo & d & _ & _ & Hin & _ & _ & Hsize & Hc).
  - vm_compute. tauto.
  - exists p, photo, d. auto.
Defined.

Lemma outbound_calls_addressed_witness :
  call_chat_id (photo_call world_up "back" ["D"%byte; "E"%byte; "F"%byte]) = Some "CHAT".
Proof.
  refine (proj1 (outbound_calls_addressed world_up card_request
                   (photo_call world_up "back" ["D"%byte; "E"%byte; "F"%byte]) _)).
  vm_compute. tauto.
Defined.

End OutboundRuns.

(** * Further properties of the handler: its answers *)

Section AnswerFacts.
Import Py Effects EffNotations Server Observe Validators More.

(** X14.  The three answers of the handler: the status is 200, 400 or
    500; the [success] flag is set exactly with status 200, and exactly
    then the answer carries an [applicationId]. *)
Theorem answer_invariants (w : World) (req : request) :
  let r := result (handle_submission w req) in
  (status r = 200%N \/ status r = 400%N \/ status r = 500%N)
  /\ (success r = true <-> status r = 200%N)
  /\ (applicationId r <> None <-> status r = 200%N).
Proof.
  cbv zeta.
  pose proof (handle_submission_answers w req) as H. cbv zeta in H.
  destruct H as [H|[H|[(f & m & _ & H)|[H|[H|[H|[(p & _ & H)|[(v & t & _ & _ & H)|
                (v & t & _ & _ & H)]]]]]]]];
    rewrite H; cbn [status success applicationId resp400 resp500];
    (split; [auto|]); split; split; intros X; try discriminate; try congruence;
    try reflexivity.
Qed.



Lemma validate_submission_same_date w1 w2 req :
  date_today w1 = date_today w2 ->
  validate_submission w1 req = validate_submission w2 req.
Proof. intros H. unfold validate_submission. now rewrite H. Qed.

Lemma token_hex_same w1 w2 :
  (forall i, i < 4 -> urandom w1 i = urandom w2 i) ->
  token_hex w1 4 = token_hex w2 4.
Proof.
  intros H. unfold token_hex, token_bytes. cbn [seq map].
  now rewrite (H 0), (H 1), (H 2), (H 3) by lia.
Qed.

(** X16.  The answer does not depend on the photos: two worlds with the
    same date, the same fate of the text call and the same random bytes
    give the same answer to the same request, whatever the decoder and the
    uploads do in each. *)
Theorem answer_ignores_uploads (w1 w2 : World) (req : request) :
  same_for_caller w1 w2 ->
  result (handle_submission w1 req) = result (handle_submission w2 req).
Proof.
  intros (Hd & Ht & Hr).
  pose proof (validate_submission_same_date w1 w2 req Hd) as Ev.
  destruct (validate_submission w2 req) as [[r|v] t] eqn:E.
  - rewrite (handle_submission_rejected w1 req r t Ev).
    now rewrite (handle_submission_rejected w2 req r t E).
  - rewrite (handle_submission_validated w1 req v t Ev).
    rewrite (handle_submission_validated w2 req v t E). cbn [result fst].
    pose proof (Ht (message_of v)) as Hf.
    destruct (call_failed w2 (text_call w2 (message_of v))) eqn:F2.
    + destruct (dispatch_text_failed w1 v Hf) as [m1 ->].
      destruct (dispatch_text_failed w2 v F2) as [m2 ->]. reflexivity.
    + rewrite (dispatch_text_ok w1 v Hf), (dispatch_text_ok w2 v F2).
      cbn [fst]. unfold application_id. now rewrite (token_hex_same w1 w2 Hr).
Qed.


Lemma first_missing_photo_Some slots : forall photos p,
  first_missing_photo slots photos = Some p ->
  exists before after,
    slots = (before ++ p :: after)%list
    /\ truthy_opt (get photos p) = false
    /\ forall q, In q before -> truthy_opt (get photos q) = true.
Proof.
  induction slots as [|s slots IH]; intros photos p; cbn [first_missing_photo];
    [discriminate|].
  destruct (truthy_opt (get photos s)) eqn:E; cbn [negb].
  - intros H. destruct (IH _ _ H) as (before & after & -> & Hm & Hb).
    exists (s :: before), after. repeat split; auto.
    intros q [<-|Hq]; auto.
  - intros [= <-]. exists [], slots. repeat split; auto.
Qed.

(** X18.  The photo check comes last and names the first slot that is
    missing: when every field check has passed, a submission whose photos
    mapping lacks (absent or empty) one of front, back, selfie is answered
    400 with the message of the first such slot in that order, and makes no
    outbound call. *)
Theorem first_missing_photo_reported (w : World) (req : request) (p : string) :
  is_json req = true ->
  truthy_dict (get_json req) = true ->
  first_missing (required_of req) (checked_form req) = None ->
  validate_email (get_or (checked_form req) "email" "") = true ->
  validate_phone (get_or (checked_form req) "phone" "") = true ->
  (is_job_application (form_of req) = false ->
   Dates.validate_birthdate (date_today w)
     (get_or (checked_form req) "birthdate" "") = true) ->
  first_missing_photo required_photos (photos_of req) = Some p ->
  result (handle_submission w req)
  = mkResponse 400 false ("Foto " ++ p ++ " é obrigatória") None
  /\ outbound_calls (trace (handle_submission w req)) = []
  /\ exists before after,
       ["front"; "back"; "selfie"] = (before ++ p :: after)%list
       /\ truthy_opt (get (photos_of req) p) = false
       /\ forall q, In q before -> truthy_opt (get (photos_of req) q) = true.
Proof.
  intros Hj Hd Hfm He Hp Ha Hph.
  pose proof (validate_submission_cases w req) as H. cbv zeta in H.
  destruct H as [(H & _)|[(_ & H & _)|(_ & _ & [(f & m & F & _)|(_ & H)])]];
    try congruence.
  destruct H as [(X1 & H)|[(X1 & X2 & H)|[(X1 & X2 & X3 & X4 & H)|(X1 & X2 & X3 & H)]]];
    try congruence.
  { rewrite (Ha X3) in X4. discriminate. }
  destruct H as [(q & Q & H)|(Q & _)]; [|congruence].
  rewrite Hph in Q. injection Q as <-.
  pose proof (outbound_calls_handle w req) as Ho. rewrite H in Ho.
  cbn [result fst] in Ho.
  rewrite (handle_submission_rejected w req _ _ H) in *. cbn [result fst trace snd] in *.
  split; [reflexivity|]. split; [exact Ho|].
  now apply first_missing_photo_Some.
Qed.

(** X19.  The birthdate check is for card applications only: for a job
    application the checks do not read the current date, and the answer is
    never the age message. *)
Theorem job_application_skips_age_check (w1 w2 : World) (req : request) :
  is_job_application (form_of req) = true ->
  validate_submission w1 req = validate_submission w2 req
  /\ message (result (handle_submission w1 req)) <> "Você deve ter pelo menos 18 anos".
Proof.
  intros Hjob. split.
  - unfold validate_submission. unfold form_of in Hjob. cbv zeta.
    rewrite Hjob. cbn [negb andb]. reflexivity.
  - pose proof (validate_submission_cases w1 req) as H. cbv zeta in H.
    destruct H as [(_ & H)|[(_ & _ & H)|(_ & _ & [(f & m & F & H)|(_ & H)])]].
    1-2: rewrite (handle_submission_rejected w1 req _ _ H); cbn; discriminate.
    { rewrite (handle_submission_rejected w1 req _ _ H). cbn [result fst message resp400].
      rewrite required_check_on_raw_form, Hjob in F.
      apply first_missing_In in F. cbn [In undefaulted_required] in F. cbn in F.
      repeat destruct F as [F|F]; try contradiction;
        injection F as <- <-; discriminate. }
    destruct H as [(_ & H)|[(_ & _ & H)|[(_ & _ & X & _)|(_ & _ & _ & H)]]];
      try congruence.
    1-2: rewrite (handle_submission_rejected w1 req _ _ H); cbn; discriminate.
    destruct H as [(q & _ & H)|(_ & H)].
    + rewrite (handle_submission_rejected w1 req _ _ H). cbn. discriminate.
    + rewrite (handle_submission_validated w1 req _ _ H). cbn [result fst].
      set (v := mkValidated _ _ _).
      destruct (call_failed w1 (text_call w1 (message_of v))) eqn:E.
      * destruct (dispatch_text_failed w1 v E) as [m ->]. cbn. discriminate.
      * rewrite (dispatch_text_ok w1 v E). cbn. discriminate.
Qed.


End AnswerFacts.

Section AnswerRuns.
Import Py Effects Server Observe Validators More Examples.

Lemma answer_ignores_uploads_witness :
  result (handle_submission world_uploads_down card_request)
  = mkResponse 200 true "Dados enviados com sucesso" (Some "NCDEADBEEF").
Proof.
  refine (eq_trans (eq_sym (answer_ignores_uploads world_up world_uploads_down
                              card_request _)) eq_refl).
  split; [reflexivity|]. split; [intros msg; reflexivity | intros i _; reflexivity].
Defined.


Lemma first_missing_photo_reported_witness :
  result (handle_submission world_up
            (submission card_form [("front", "QUJD"); ("back", ""); ("selfie", "")]))
  = mkResponse 400 false "Foto back é obrigatória" None.
Proof.
  exact (proj1 (first_missing_photo_reported world_up
                  (submission card_form [("front", "QUJD"); ("back", ""); ("selfie", "")])
                  "back" eq_refl eq_refl eq_refl eq_refl eq_refl
                  (fun _ => eq_refl) eq_refl)).
Defined.

Lemma job_application_skips_age_check_witness :
  validate_submission world_up (submission (set job_form "birthdate" "2020-01-01")
                                  three_photos)
  = validate_submission world_uploads_down
      (submission (set job_form "birthdate" "2020-01-01") three_photos)
  /\ status (result (handle_submission world_up
                       (submission (set job_form "birthdate" "2020-01-01")
                          three_photos))) = 200%N.
Proof.
  split; [|reflexivity].
  exact (proj1 (job_application_skips_age_check world_up world_uploads_down
                  (submission (set job_form "birthdate" "2020-01-01") three_photos)
                  eq_refl)).
Defined.


End AnswerRuns.

(** * Further properties of the defaults and of the identifier *)

Section DefaultFacts.
Import Py Effects Server Observe More.

Lemma fill_optional_noop defaults : forall fd,
  (forall f d, In (f, d) defaults -> truthy_opt (get fd f) = true) ->
  fill_optional defaults fd = fd.
Proof.
  unfold fill_optional, items.
  induction defaults as [|[f d] defaults IH]; intros fd H; [reflexivity|].
  cbn [fold_left fst snd]. rewrite (H f d) by now left. cbn [negb].
  apply IH. intros f' d' Hin. apply (H f' d'). now right.
Qed.

Lemma set_keys {V} (d : dict V) k v :
  exists added, map fst (set d k v) = (map fst d ++ added)%list.
Proof.
  induction d as [|[k' v'] d [added IH]]; cbn [set map fst].
  - exists [k]. reflexivity.
  - destruct (String.eqb k' k); cbn [map fst].
    + exists []. now rewrite app_nil_r.
    + exists added. now rewrite IH.
Qed.

Lemma fill_optional_keys defaults : forall fd,
  exists added, map fst (fill_optional defaults fd) = (map fst fd ++ added)%list.
Proof.
  unfold fill_optional, items.
  induction defaults as [|[f d] defaults IH]; intros fd; cbn [fold_left fst snd].
  - exists []. now rewrite app_nil_r.
  - destruct (negb (truthy_opt (get fd f))); [|apply IH].
    destruct (IH (set fd f d)) as [a1 E1]. destruct (set_keys fd f d) as [a2 E2].
    exists (a2 ++ a1)%list. now rewrite E1, E2, app_assoc.
Qed.

(** X21.  Filling in the defaults is idempotent and only adds: applied to
    its own result it changes nothing; a form that already holds every
    optional field is left as it is; and the keys of the form keep their
    places, with the new ones behind them. *)
Theorem fill_optional_idempotent (fd : dict string) :
  fill_optional optional_fields (fill_optional optional_fields fd)
  = fill_optional optional_fields fd
  /\ ((forall f d, In (f, d) optional_fields -> truthy_opt (get fd f) = true) ->
      fill_optional optional_fields fd = fd)
  /\ exists added,
       map fst (fill_optional optional_fields fd) = (map fst fd ++ added)%list.
Proof.
  split; [|split].
  - apply fill_optional_noop. intros f d Hin.
    now destruct (defaulted_field_present fd f d Hin).
  - apply fill_optional_noop.
  - apply fill_optional_keys.
Qed.

Lemma fill_optional_idempotent_witness :
  fill_optional optional_fields Examples.card_form = Examples.card_form.
Proof.
  refine (proj1 (proj2 (fill_optional_idempotent Examples.card_form)) _).
  intros f d Hin. cbn in Hin.
  repeat destruct Hin as [Hin|Hin]; try contradiction;
    injection Hin as <- <-; reflexivity.
Defined.

Lemma unhex_pair b :
  (16 * unhex_digit (upper_char (hex_digit (Byte.to_N b / 16)))
   + unhex_digit (upper_char (hex_digit (Byte.to_N b mod 16))))%N
  = Byte.to_N b.
Proof. destruct b; reflexivity. Qed.

Lemma unhexlify_hexlify bs : unhexlify (upper (hexlify bs)) = map Byte.to_N bs.
Proof.
  induction bs as [|b bs IH]; [reflexivity|].
  cbn [hexlify upper unhexlify map]. now rewrite unhex_pair, IH.
Qed.

Lemma to_N_inj a b : Byte.to_N a = Byte.to_N b -> a = b.
Proof.
  intros H. pose proof (Byte.of_to_N a) as Ha. rewrite H, Byte.of_to_N in Ha.
  now injection Ha.
Qed.

Lemma map_to_N_inj (l1 l2 : list byte) :
  map Byte.to_N l1 = map Byte.to_N l2 -> l1 = l2.
Proof.
  revert l2. induction l1 as [|a l1 IH]; intros [|b l2]; cbn [map]; try discriminate;
    [reflexivity|].
  intros [= H1 H2]. f_equal; [now apply to_N_inj | now apply IH].
Qed.

Lemma append_cancel_l (p a b : string) : p ++ a = p ++ b -> a = b.
Proof. induction p as [|c p IH]; cbn [append]; [auto|]. intros [= H]. auto. Qed.

(** X22.  The identifier tells the random bytes: two runs of the same
    kind answer with the same [applicationId] exactly when the four random
    bytes they drew are the same. *)
Theorem application_id_injective (w1 w2 : World) (v : validated) :
  application_id w1 v = application_id w2 v
  <-> forall i, i < 4 -> urandom w1 i = urandom w2 i.
Proof.
  split.
  - unfold application_id. intros H.
    assert (E : upper (token_hex w1 4) = upper (token_hex w2 4)).
    { now apply append_cancel_l in H. }
    apply (f_equal unhexlify) in E. unfold token_hex, token_bytes in E.
    rewrite !unhexlify_hexlify in E. apply map_to_N_inj in E.
    cbn [seq map] in E. injection E as E0 E1 E2 E3.
    intros i Hi.
    assert (C : i = 0 \/ i = 1 \/ i = 2 \/ i = 3) by lia.
    destruct C as [->|[->|[->| ->]]]; assumption.
  - intros H. unfold application_id. now rewrite (token_hex_same w1 w2 H).
Qed.

Lemma application_id_injective_witness :
  application_id Examples.world_up (mkValidated true [] [])
  = application_id More.world_uploads_down (mkValidated true [] []).
Proof.
  apply (proj2 (application_id_injective Examples.world_up More.world_uploads_down
                  (mkValidated true [] []))).
  intros i _. reflexivity.
Defined.

End DefaultFacts.

(** * Further properties of the handler: what it logs of its answer *)

Section LogFacts.
Import Py Effects Server Observe More.



End LogFacts.
